(** * streamdeck_ui.api: configuration store, render scheduler and key dispatcher

    A shallow embedding of [src/streamdeck_ui/api.py].  The three module-level
    dictionaries ([state], [image_cache], [decks]) and the module-level [lock]
    become the fields of one [world] record that every function threads
    through; a function that can raise returns an [outcome].  Everything the
    module does to the outside (hardware writes, process launches, injected
    keystrokes, the persisted state file) is appended to the [trace] field.

    External collaborators (PIL, pynput, the StreamDeck transport, the
    constants of [streamdeck_ui.config]) are the fields of the class
    [Platform].  *)

From Stdlib Require Import ZArith List String Ascii Bool Lia Floats.
From stdpp Require Import gmap strings pretty.

Local Open Scope string_scope.
Local Open Scope list_scope.
Local Open Scope Z_scope.

(** ** Python values *)

(** [str] methods used by the module.  A character is an 8-bit [ascii]; on
    ASCII text the functions below agree with Python's. *)
Module Str.

Definition truthy (s : string) : bool :=
  match s with EmptyString => false | _ => true end.

(** [s.split(sep)] for a one-character separator: never empty, one more
    piece than there are separators. *)
Fixpoint split (sep : ascii) (s : string) : list string :=
  match s with
  | EmptyString => [EmptyString]
  | String c s' =>
      if Ascii.eqb c sep then EmptyString :: split sep s'
      else match split sep s' with
           | h :: t => String c h :: t
           | [] => [String c EmptyString]
           end
  end.

(** [s.replace(" ", "")]. *)
Fixpoint remove (x : ascii) (s : string) : string :=
  match s with
  | EmptyString => EmptyString
  | String c s' => if Ascii.eqb c x then remove x s' else String c (remove x s')
  end.

(** Characters [str.isspace] accepts below 128. *)
Definition is_space (c : ascii) : bool :=
  let n := N_of_ascii c in
  ((9 <=? n) && (n <=? 13) || (28 <=? n) && (n <=? 32))%N.

Fixpoint lstrip (s : string) : string :=
  match s with
  | String c s' => if is_space c then lstrip s' else s
  | EmptyString => EmptyString
  end.

Fixpoint rstrip (s : string) : string :=
  match s with
  | EmptyString => EmptyString
  | String c s' =>
      match rstrip s' with
      | EmptyString => if is_space c then EmptyString else String c EmptyString
      | r => String c r
      end
  end.

Definition strip (s : string) : string := rstrip (lstrip s).

Definition lower_char (c : ascii) : ascii :=
  let n := N_of_ascii c in
  if ((65 <=? n) && (n <=? 90))%N then ascii_of_N (n + 32) else c.

Fixpoint lower (s : string) : string :=
  match s with
  | EmptyString => EmptyString
  | String c s' => String (lower_char c) (lower s')
  end.

End Str.

(** Python's [float] is an IEEE binary64, the kernel's [float]. *)
Module Flt.

(** [float(n)] for an [int] n (round to nearest even). *)
Definition of_int (n : Z) : float :=
  SF2Prim (binary_normalize prec emax n 0 false).

Definition zero : float := 0%float.
Definition minus_one : float := (-1)%float.
Definition thousand : float := 1000%float.

(** [x == 0] and [x != 0] against the int literal 0. *)
Definition is_zero (x : float) : bool := PrimFloat.eqb x zero.
Definition positive (x : float) : bool := PrimFloat.ltb zero x.

(** [n >= x] for an int [n] and a float [x]; the conversion of [n] is
    exact up to 2^53 (the clock counts milliseconds). *)
Definition int_ge (n : Z) (x : float) : bool := PrimFloat.leb x (of_int n).

(** [n + x] and [1000 / x]: the int operand is converted first. *)
Definition int_add (n : Z) (x : float) : float := PrimFloat.add (of_int n) x.
Definition thousand_over (x : float) : float := PrimFloat.div thousand x.

#[global] Arguments of_int : simpl never.
#[global] Arguments is_zero : simpl never.
#[global] Arguments positive : simpl never.
#[global] Arguments int_ge : simpl never.
#[global] Arguments int_add : simpl never.
#[global] Arguments thousand_over : simpl never.

End Flt.

(** [l[i]] on a list: negative indices count from the end, anything outside
    raises IndexError ([None]). *)
Definition py_index {A} (l : list A) (i : Z) : option A :=
  let n := Z.of_nat (length l) in
  if (0 <=? i) && (i <? n) then nth_error l (Z.to_nat i)
  else if (- n <=? i) && (i <? 0) then nth_error l (Z.to_nat (n + i))
  else None.

(** [a % b] on ints: the sign follows the divisor, [b = 0] raises
    ZeroDivisionError ([None]). *)
Definition py_mod (a b : Z) : option Z :=
  if b =? 0 then None else Some (a mod b).

(** ** The data model *)

(** One button's settings: the dict [state[deck]["buttons"][page][button]].
    A field is [None] when its key is absent from the dict. *)
Record button := Button {
  b_text : option string;
  b_icon : option string;
  b_font : option string;
  b_command : option string;
  b_keys : option string;
  b_write : option string;
  b_switch_page : option Z;
  b_brightness_change : option Z;
}.

Definition empty_button : button :=
  Button None None None None None None None None.

(** One device's entry [state[deck_id]]. *)
Record deck_state := DeckState {
  ds_buttons : option (gmap Z (gmap Z button));
  ds_brightness : option Z;
  ds_page : option Z;
}.

Definition empty_deck_state : deck_state := DeckState None None None.

(** The persisted file after [json.loads]: objects are item lists in file
    order, their keys still strings. *)
Record json_deck := JsonDeck {
  jd_buttons : option (list (string * list (string * button)));
  jd_brightness : option Z;
  jd_page : option Z;
}.

Record config_json := ConfigJson {
  cfg_version : option Z;        (* "streamdeck_ui_version" *)
  cfg_state : option (list (string * json_deck));
}.

(** What the module does to the outside world, in the order it does it. *)
Inductive key_obj :=
| KeyAttr (name : string)     (* the member [getattr(Key, name)] *)
| KeyLiteral (s : string).    (* the string itself, typed as a character *)

Inductive event {frame : Type} :=
| EvSetKeyImage (deck_id : string) (key : Z) (image : frame)
| EvSetBrightness (deck_id : string) (brightness : Z)
| EvPopen (args : list string)
| EvPress (k : key_obj)
| EvRelease (k : key_obj)
| EvType (text : string)
| EvExport (output_file : string) (saved : gmap string deck_state).
Arguments event : clear implicits.

(** One entry of [image_cache]: the list [[image, fps, next_time, frame]]. *)
Record cache_entry {frame : Type} := CacheEntry {
  ce_image : list frame;
  ce_fps : float;
  ce_next_time : float;
  ce_frame : Z;
}.
Arguments cache_entry : clear implicits.
Arguments CacheEntry {frame}.

Inductive exn :=
| ValueError | KeyError | OSError | ZeroDivisionError | IndexError | ImageError
| InvalidKeyException | InvalidCharacterException.   (* of pynput's [Controller] *)

Inductive outcome (A : Type) :=
| Returns (a : A)
| Raises (e : exn)
| Blocks.                     (* waits for ever on [lock.acquire()] *)
Arguments Returns {A}.
Arguments Raises {A}.
Arguments Blocks {A}.

(** [image_cache] key: [f"{deck_id}.{page}.{button_id}"]. *)
Definition cache_key (deck_id : string) (page button_id : Z) : string :=
  deck_id +:+ "." +:+ pretty page +:+ "." +:+ pretty button_id.

(** No ["."] occurs in the string (the decimal form of an int is such). *)
Fixpoint dot_free (s : string) : Prop :=
  match s with
  | EmptyString => True
  | String c s' => c ≠ "."%char ∧ dot_free s'
  end.

(** The external collaborators of the module. *)
Class Platform := {
  (** A frame in the device's native format, and a device handle. *)
  frame : Type;
  deck : Type;
  (** [_render_key_image(deck, **button_settings)] decodes and composes with
      PIL; [None] when it raises.  The frame rate is 0 or [1000 / duration]. *)
  _render_key_image : deck → button → option (list frame * float);
  (** Whether [Popen(args)] starts the process (it raises OSError if not). *)
  popen_ok : list string → bool;
  (** Whether pynput's [Key] has an attribute of that name. *)
  Key_hasattr : string → bool;
  (** [keyboard.press(k)] and [keyboard.release(k)] resolve the key before
      they send anything: the exception they raise when the key is refused
      (pynput raises ValueError for a string that is not one character and
      InvalidKeyException for a key it cannot map), [None] when it is sent. *)
  key_error : key_obj → option exn;
  (** Whether [keyboard.type] can type the character. *)
  char_ok : ascii → bool;
  (** [int(s)]; [None] when it raises ValueError. *)
  py_int : string → option Z;
  (** Constants of [streamdeck_ui.config]. *)
  CONFIG_FILE_VERSION : Z;
  STATE_FILE : string;
}.

Section Api.

Context `{Platform}.

Record world := World {
  state : gmap string deck_state;
  image_cache : gmap string (cache_entry frame);
  decks : gmap string deck;
  lock : bool;                       (* [true] while the lock is held *)
  trace : list (event frame);
}.

Definition with_state (st : gmap string deck_state) (w : world) : world :=
  World st (image_cache w) (decks w) (lock w) (trace w).
Definition with_image_cache (c : gmap string (cache_entry frame)) (w : world) : world :=
  World (state w) c (decks w) (lock w) (trace w).
Definition with_decks (d : gmap string deck) (w : world) : world :=
  World (state w) (image_cache w) d (lock w) (trace w).
Definition with_lock (l : bool) (w : world) : world :=
  World (state w) (image_cache w) (decks w) l (trace w).
Definition with_trace (t : list (event frame)) (w : world) : world :=
  World (state w) (image_cache w) (decks w) (lock w) t.

(** *** The monad of module-level code *)

Definition M (A : Type) : Type := world → outcome A * world.

#[global] Instance M_ret : MRet M := λ A a w, (Returns a, w).
#[global] Instance M_bind : MBind M := λ A B f m w,
  match m w with
  | (Returns a, w') => f a w'
  | (Raises e, w') => (Raises e, w')
  | (Blocks, w') => (Blocks, w')
  end.

Definition raise {A} (e : exn) : M A := λ w, (Raises e, w).
Definition gets {A} (f : world → A) : M A := λ w, (Returns (f w), w).
Definition modify (f : world → world) : M unit := λ w, (Returns tt, f w).
Definition emit (ev : event frame) : M unit :=
  modify (λ w, with_trace (trace w ++ [ev]) w).
Definition from_option {A} (e : exn) (o : option A) : M A :=
  match o with Some a => mret a | None => raise e end.

Definition result {A} (m : M A) (w : world) : outcome A := fst (m w).
Definition after {A} (m : M A) (w : world) : world := snd (m w).

Fixpoint for_each {A} (l : list A) (body : A → M unit) : M unit :=
  match l with
  | [] => mret tt
  | x :: l' => body x;; for_each l' body
  end.

Definition acquire : M unit := λ w,
  if lock w then (Blocks, w) else (Returns tt, with_lock true w).
Definition release : M unit := modify (with_lock false).

(** *** Persistence *)

Definition export_config (output_file : string) : M unit :=
  st ← gets state; emit (EvExport output_file st).

Definition _save_state : M unit := export_config STATE_FILE.

(** *** Configuration store *)

Definition lookup_button (st : gmap string deck_state)
    (deck_id : string) (page btn : Z) : option button :=
  ds ← st !! deck_id; bs ← ds_buttons ds; pg ← bs !! page; pg !! btn.

(** The tree after the three [setdefault]s of [_button_state] and with
    [b] stored at the leaf. *)
Definition put_button (deck_id : string) (page btn : Z) (b : button)
    (st : gmap string deck_state) : gmap string deck_state :=
  let ds := default empty_deck_state (st !! deck_id) in
  let buttons := default ∅ (ds_buttons ds) in
  let buttons_state := default ∅ (buttons !! page) in
  <[deck_id := DeckState (Some (<[page := <[btn := b]> buttons_state]> buttons))
                         (ds_brightness ds) (ds_page ds)]> st.

Definition _button_state (deck_id : string) (page btn : Z) : M button := λ w,
  let b := default empty_button (lookup_button (state w) deck_id page btn) in
  (Returns b, with_state (put_button deck_id page btn b (state w)) w).

(** [_button_state(deck_id, page, button)[field] = value]: the dict that
    [_button_state] returned is updated in place. *)
Definition button_setitem (deck_id : string) (page btn : Z)
    (assign : button → button) : M unit :=
  b ← _button_state deck_id page btn;
  modify (λ w, with_state (put_button deck_id page btn (assign b) (state w)) w).

Definition get_page (deck_id : string) : M Z :=
  st ← gets state;
  mret (default 0 (ds_page (default empty_deck_state (st !! deck_id)))).

Definition get_brightness (deck_id : string) : M Z :=
  st ← gets state;
  mret (default 100 (ds_brightness (default empty_deck_state (st !! deck_id)))).

(** *** Render pass *)

Definition set_cache (key : string) (e : cache_entry frame) : M unit :=
  modify (λ w, with_image_cache (<[key := e]> (image_cache w)) w).

Definition cache_pop (key : string) : M unit :=
  modify (λ w, with_image_cache (delete key (image_cache w)) w).

(** [deck_state.get("buttons", {}).get(page, {})]. *)
Definition page_buttons (ds : deck_state) (page : Z) : gmap Z button :=
  default ∅ (default ∅ (ds_buttons ds) !! page).

(** Body of the inner loop of [render]. *)
Definition render_button (dk : deck) (deck_id : string) (page : Z)
    (item : Z * button) : M unit :=
  let '(button_id, button_settings) := item in
  let key := cache_key deck_id page button_id in
  cache ← gets image_cache;
  match cache !! key with
  | None =>
      '(image, fps) ← from_option ImageError (_render_key_image dk button_settings);
      set_cache key (CacheEntry image fps Flt.zero 0)
  | Some e =>
      set_cache key (CacheEntry (ce_image e) (ce_fps e) Flt.zero 0)
  end.

Definition render_deck (item : string * deck_state) : M unit :=
  let '(deck_id, ds) := item in
  dks ← gets decks;
  match dks !! deck_id with
  | None => mret tt                  (* warn(...); continue *)
  | Some dk =>
      page ← get_page deck_id;
      for_each (map_to_list (page_buttons ds page)) (render_button dk deck_id page)
  end.

(** [render()]: the items of a dict are visited in the order of
    [map_to_list] (Python visits them in insertion order; no statement below
    depends on the order); the warning for an unplugged deck is not
    recorded. *)
Definition render : M unit :=
  acquire;;
  st ← gets state;
  for_each (map_to_list st) render_deck;;
  release.

(** *** Button accessors *)

Definition assign_text (v : string) (b : button) : button :=
  Button (Some v) (b_icon b) (b_font b) (b_command b) (b_keys b) (b_write b)
         (b_switch_page b) (b_brightness_change b).
Definition assign_icon (v : string) (b : button) : button :=
  Button (b_text b) (Some v) (b_font b) (b_command b) (b_keys b) (b_write b)
         (b_switch_page b) (b_brightness_change b).
Definition assign_command (v : string) (b : button) : button :=
  Button (b_text b) (b_icon b) (b_font b) (Some v) (b_keys b) (b_write b)
         (b_switch_page b) (b_brightness_change b).
Definition assign_keys (v : string) (b : button) : button :=
  Button (b_text b) (b_icon b) (b_font b) (b_command b) (Some v) (b_write b)
         (b_switch_page b) (b_brightness_change b).
Definition assign_write (v : string) (b : button) : button :=
  Button (b_text b) (b_icon b) (b_font b) (b_command b) (b_keys b) (Some v)
         (b_switch_page b) (b_brightness_change b).
Definition assign_switch_page (v : Z) (b : button) : button :=
  Button (b_text b) (b_icon b) (b_font b) (b_command b) (b_keys b) (b_write b)
         (Some v) (b_brightness_change b).
Definition assign_brightness_change (v : Z) (b : button) : button :=
  Button (b_text b) (b_icon b) (b_font b) (b_command b) (b_keys b) (b_write b)
         (b_switch_page b) (Some v).

Definition set_button_text (deck_id : string) (page btn : Z) (text : string) : M unit :=
  button_setitem deck_id page btn (assign_text text);;
  cache_pop (cache_key deck_id page btn);;
  render;;
  _save_state.

Definition get_button_text (deck_id : string) (page btn : Z) : M string :=
  b ← _button_state deck_id page btn; mret (default "" (b_text b)).

Definition set_button_icon (deck_id : string) (page btn : Z) (icon : string) : M unit :=
  button_setitem deck_id page btn (assign_icon icon);;
  cache_pop (cache_key deck_id page btn);;
  render;;
  _save_state.

Definition get_button_icon (deck_id : string) (page btn : Z) : M string :=
  b ← _button_state deck_id page btn; mret (default "" (b_icon b)).

Definition set_button_change_brightness (deck_id : string) (page btn : Z)
    (amount : Z) : M unit :=
  button_setitem deck_id page btn (assign_brightness_change amount);;
  render;;
  _save_state.

Definition get_button_change_brightness (deck_id : string) (page btn : Z) : M Z :=
  b ← _button_state deck_id page btn; mret (default 0 (b_brightness_change b)).

Definition set_button_command (deck_id : string) (page btn : Z)
    (command : string) : M unit :=
  button_setitem deck_id page btn (assign_command command);;
  _save_state.

Definition get_button_command (deck_id : string) (page btn : Z) : M string :=
  b ← _button_state deck_id page btn; mret (default "" (b_command b)).

Definition set_button_switch_page (deck_id : string) (page btn : Z)
    (switch_page : Z) : M unit :=
  button_setitem deck_id page btn (assign_switch_page switch_page);;
  _save_state.

Definition get_button_switch_page (deck_id : string) (page btn : Z) : M Z :=
  b ← _button_state deck_id page btn; mret (default 0 (b_switch_page b)).

Definition set_button_keys (deck_id : string) (page btn : Z) (keys : string) : M unit :=
  button_setitem deck_id page btn (assign_keys keys);;
  _save_state.

Definition get_button_keys (deck_id : string) (page btn : Z) : M string :=
  b ← _button_state deck_id page btn; mret (default "" (b_keys b)).

Definition set_button_write (deck_id : string) (page btn : Z) (write : string) : M unit :=
  button_setitem deck_id page btn (assign_write write);;
  _save_state.

Definition get_button_write (deck_id : string) (page btn : Z) : M string :=
  b ← _button_state deck_id page btn; mret (default "" (b_write b)).

(** *** Brightness and page *)

(** [state.setdefault(deck_id, {})[field] = value]. *)
Definition deck_setitem (deck_id : string) (assign : deck_state → deck_state) : M unit :=
  modify (λ w, with_state
    (<[deck_id := assign (default empty_deck_state (state w !! deck_id))]> (state w)) w).

Definition set_brightness (deck_id : string) (brightness : Z) : M unit :=
  dks ← gets decks;
  _ ← from_option KeyError (dks !! deck_id);       (* decks[deck_id] *)
  emit (EvSetBrightness deck_id brightness);;
  deck_setitem deck_id (λ ds, DeckState (ds_buttons ds) (Some brightness) (ds_page ds));;
  _save_state.

Definition change_brightness (deck_id : string) (amount : Z) : M unit :=
  b ← get_brightness deck_id;
  set_brightness deck_id (Z.max (Z.min (b + amount) 100) 0).

Definition set_page (deck_id : string) (page : Z) : M unit :=
  deck_setitem deck_id (λ ds, DeckState (ds_buttons ds) (ds_brightness ds) (Some page));;
  render;;
  _save_state.

(** *** Key event dispatcher *)

(** [getattr(Key, key_name.lower(), key_name)]. *)
Definition resolve_key (key_name : string) : key_obj :=
  if Key_hasattr (Str.lower key_name) then KeyAttr (Str.lower key_name)
  else KeyLiteral key_name.

Definition when (c : bool) (m : M unit) : M unit := if c then m else mret tt.

(** [keyboard.press(k)] and [keyboard.release(k)]: a refused key raises and
    sends nothing. *)
Definition keyboard_press (k : key_obj) : M unit :=
  match key_error k with
  | Some e => raise e
  | None => emit (EvPress k)
  end.

Definition keyboard_release (k : key_obj) : M unit :=
  match key_error k with
  | Some e => raise e
  | None => emit (EvRelease k)
  end.

(** [keyboard.type(text)] types character after character and raises at the
    first one it cannot type: the characters before that one are typed. *)
Fixpoint typed_prefix (text : string) : string :=
  match text with
  | EmptyString => EmptyString
  | String c text' => if char_ok c then String c (typed_prefix text') else EmptyString
  end.

Definition keyboard_type (text : string) : M unit :=
  let typed := typed_prefix text in
  if String.eqb typed text then emit (EvType text)
  else
    when (Str.truthy typed) (emit (EvType typed));;
    raise InvalidCharacterException.

Definition press_keys (keys : string) : M unit :=
  let keys := Str.remove " " (Str.strip keys) in
  for_each (Str.split "," keys) (λ section,
    for_each (Str.split "+" section) (λ key_name, keyboard_press (resolve_key key_name));;
    for_each (Str.split "+" section) (λ key_name, keyboard_release (resolve_key key_name))).

Definition Popen (args : list string) : M unit :=
  if popen_ok args then emit (EvPopen args) else raise OSError.

(** [_key_change_callback(deck_id, _deck, key, state)]: the flag [state] of
    the source is [pressed] here.  Creating the pynput [Controller] leaves
    no trace; what its [press], [release] and [type] calls send is recorded
    as events, and a call the keyboard refuses raises out of the callback,
    which has no handler. *)
Definition _key_change_callback (deck_id : string) (key : Z) (pressed : bool) : M unit :=
  when pressed (
    page ← get_page deck_id;
    command ← get_button_command deck_id page key;
    when (Str.truthy command) (Popen (Str.split " " command));;
    keys ← get_button_keys deck_id page key;
    when (Str.truthy keys) (press_keys keys);;
    write ← get_button_write deck_id page key;
    when (Str.truthy write) (keyboard_type write);;
    brightness_change ← get_button_change_brightness deck_id page key;
    when (negb (brightness_change =? 0)) (change_brightness deck_id brightness_change);;
    switch_page ← get_button_switch_page deck_id page key;
    when (negb (switch_page =? 0)) (set_page deck_id (switch_page - 1))).

(** *** Render scheduler *)

(** Body of the inner loop of [render_thread] for one button. *)
Definition tick_button (current_time : Z) (deck_id : string) (page : Z)
    (item : Z * button) : M unit :=
  let '(button_id, _) := item in
  let key := cache_key deck_id page button_id in
  cache ← gets image_cache;
  match cache !! key with
  | None => mret tt
  | Some (CacheEntry image fps next_time frame_no) =>
      if negb (Flt.is_zero fps) && Flt.int_ge current_time next_time then
        let next_time := Flt.int_add current_time (Flt.thousand_over fps) in
        next_frame ← from_option ZeroDivisionError
                       (py_mod (frame_no + 1) (Z.of_nat (length image)));
        set_cache key (CacheEntry image fps next_time next_frame);;
        img ← from_option IndexError (py_index image frame_no);
        emit (EvSetKeyImage deck_id button_id img)
      else if Flt.is_zero fps && Flt.is_zero next_time then
        next_frame ← from_option ZeroDivisionError
                       (py_mod (frame_no + 1) (Z.of_nat (length image)));
        set_cache key (CacheEntry image fps Flt.minus_one next_frame);;
        img ← from_option IndexError (py_index image frame_no);
        emit (EvSetKeyImage deck_id button_id img)
      else mret tt
  end.

Definition tick_deck (current_time : Z) (item : string * deck_state) : M unit :=
  let '(deck_id, ds) := item in
  dks ← gets decks;
  match dks !! deck_id with
  | None => mret tt
  | Some _ =>
      page ← get_page deck_id;
      for_each (map_to_list (page_buttons ds page)) (tick_button current_time deck_id page)
  end.

(** One iteration of the loop of [render_thread], the clock reading
    [current_time]: the part between [lock.acquire()] and
    [lock.release()]. *)
Definition render_tick (current_time : Z) : M unit :=
  acquire;;
  st ← gets state;
  for_each (map_to_list st) (tick_deck current_time);;
  release.

(** [render_thread] over the successive clock readings of its iterations. *)
Definition render_thread (clock : list Z) : M unit :=
  for_each clock render_tick.

(** *** Loading a configuration *)

(** The dict comprehensions of [_open_config]: every key goes through
    [int]; a later item overwrites an earlier one with the same number. *)
Fixpoint int_keys {V} (items : list (string * V)) (acc : gmap Z V) : option (gmap Z V) :=
  match items with
  | [] => Some acc
  | (k, v) :: items' => n ← py_int k; int_keys items' (<[n := v]> acc)
  end.

Fixpoint int_pages (items : list (string * list (string * button)))
    (acc : gmap Z (gmap Z button)) : option (gmap Z (gmap Z button)) :=
  match items with
  | [] => Some acc
  | (page_id, buttons) :: items' =>
      p ← py_int page_id;
      bs ← int_keys buttons ∅;
      int_pages items' (<[p := bs]> acc)
  end.

Definition load_deck (item : string * json_deck) : M unit :=
  let '(deck_id, deck) := item in
  buttons ← from_option ValueError (int_pages (default [] (jd_buttons deck)) ∅);
  modify (λ w, with_state
    (<[deck_id := DeckState (Some buttons) (jd_brightness deck) (jd_page deck)]> (state w)) w).

(** [_open_config(config_file)], given what [json.loads] made of the file
    ([None] when the file cannot be opened or parsed). *)
Definition _open_config (contents : option config_json) : M unit :=
  config ← from_option OSError contents;
  let file_version := default 0 (cfg_version config) in
  if negb (file_version =? CONFIG_FILE_VERSION) then raise ValueError
  else
    modify (with_state ∅);;
    decks_json ← from_option KeyError (cfg_state config);
    for_each decks_json load_deck.

Definition import_config (contents : option config_json) : M unit :=
  _open_config contents;;
  render;;
  _save_state.

End Api.


(** ** Vocabulary of the statements *)

Section Vocabulary.

Context `{Platform}.

(** [P] survives [m], however [m] ends. *)
Definition invariant {A} (P : world → Prop) (m : M A) : Prop :=
  ∀ w, P w → P (after m w).

(** The values the two plain getters read. *)
Definition brightness_of (st : gmap string deck_state) (deck_id : string) : Z :=
  default 100 (ds_brightness (default empty_deck_state (st !! deck_id))).
Definition page_of (st : gmap string deck_state) (deck_id : string) : Z :=
  default 0 (ds_page (default empty_deck_state (st !! deck_id))).

(** The button a scheduler or render pass visits: its deck is registered and
    it is configured on the deck's current page. *)
Definition visible (w : world) (deck_id : string) (page btn : Z) : Prop :=
  is_Some (decks w !! deck_id) ∧
  page = page_of (state w) deck_id ∧
  ∃ ds, state w !! deck_id = Some ds ∧ is_Some (page_buttons ds page !! btn).

(** The keys and the text the keyboard takes without raising. *)
Definition key_accepted (k : key_obj) : bool :=
  match key_error k with Some _ => false | None => true end.

Definition chord_accepted (section : string) : bool :=
  forallb (λ key_name, key_accepted (resolve_key key_name)) (Str.split "+" section).

Definition keys_accepted (keys : string) : bool :=
  forallb chord_accepted (Str.split "," (Str.remove " " (Str.strip keys))).

Definition typable (text : string) : bool := String.eqb (typed_prefix text) text.

(** The events of [press_keys] when every key is accepted: chord after
    chord, every key of a chord pressed, then every key released in the same
    order. *)
Definition chord_events (section : string) : list (event frame) :=
  map (λ key_name, EvPress (resolve_key key_name)) (Str.split "+" section) ++
  map (λ key_name, EvRelease (resolve_key key_name)) (Str.split "+" section).

Definition key_events (keys : string) : list (event frame) :=
  concat (map chord_events (Str.split "," (Str.remove " " (Str.strip keys)))).

(** The frames pushed to one key of one deck, oldest first. *)
Fixpoint pushes_of (deck_id : string) (btn : Z) (t : list (event frame)) : list frame :=
  match t with
  | [] => []
  | EvSetKeyImage d k img :: t' =>
      if decide (d = deck_id ∧ k = btn) then img :: pushes_of deck_id btn t'
      else pushes_of deck_id btn t'
  | _ :: t' => pushes_of deck_id btn t'
  end.

(** A cache entry the scheduler can draw: it has a frame at its index. *)
Definition entry_ok (e : cache_entry frame) : Prop :=
  0 ≤ ce_frame e < Z.of_nat (length (ce_image e)).

Definition cache_ok (w : world) : Prop :=
  ∀ key e, image_cache w !! key = Some e → entry_ok e.

(** Whether a tick at [now] draws the entry, and the entry it leaves then:
    the two branches of the loop body of [render_thread]. *)
Definition due (now : Z) (e : cache_entry frame) : bool :=
  negb (Flt.is_zero (ce_fps e)) && Flt.int_ge now (ce_next_time e)
  || Flt.is_zero (ce_fps e) && Flt.is_zero (ce_next_time e).

Definition advanced (now : Z) (e : cache_entry frame) : cache_entry frame :=
  CacheEntry (ce_image e) (ce_fps e)
    (if Flt.is_zero (ce_fps e) then Flt.minus_one
     else Flt.int_add now (Flt.thousand_over (ce_fps e)))
    ((ce_frame e + 1) mod Z.of_nat (length (ce_image e))).

(** What a loop over other buttons must leave alone while one key is
    followed: the tree, the registry, the lock, the entry under [key] and
    the frames pushed to the button. *)
Definition tracking (st : gmap string deck_state) (dks : gmap string deck) (lk : bool)
    (key : string) (deck_id : string) (btn : Z)
    (c : option (cache_entry frame)) (pushed : list frame) (w : world) : Prop :=
  cache_ok w ∧ state w = st ∧ decks w = dks ∧ lock w = lk ∧
  image_cache w !! key = c ∧ pushes_of deck_id btn (trace w) = pushed.

(** The guarantee of the render engine: at least one frame. *)
Definition renders_frames : Prop :=
  ∀ dk b image fps, _render_key_image dk b = Some (image, fps) → image ≠ [].

(** The entry [render] leaves for a button it finds in the cache. *)
Definition reset (e : cache_entry frame) : cache_entry frame :=
  CacheEntry (ce_image e) (ce_fps e) Flt.zero 0.

(** The entry under [key] is absent or was rendered from [b] on a
    registered deck and has not been drawn since. *)
Definition fresh_or_absent (dks : gmap string deck) (deck_id : string) (b : button)
    (key : string) (c : gmap string (cache_entry frame)) : Prop :=
  c !! key = None ∨
  ∃ dk image fps,
    dks !! deck_id = Some dk ∧ _render_key_image dk b = Some (image, fps) ∧
    c !! key = Some (CacheEntry image fps Flt.zero 0).

(** Every entry of [c0] is still in [c], with its frames and frame rate. *)
Definition keeps_entries (c0 c : gmap string (cache_entry frame)) : Prop :=
  ∀ key e, c0 !! key = Some e →
    ∃ e', c !! key = Some e' ∧ ce_image e' = ce_image e ∧ ce_fps e' = ce_fps e.

(** The entry under [key] waits for its first draw. *)
Definition pending (key : string) (c : gmap string (cache_entry frame)) : Prop :=
  ∃ e, c !! key = Some e ∧ ce_next_time e = Flt.zero ∧ ce_frame e = 0.

(** The data model's bound on the brightness attribute, for every deck. *)
Definition brightness_in_range (st : gmap string deck_state) : Prop :=
  ∀ deck_id, 0 ≤ brightness_of st deck_id ≤ 100.

(** A hardware write of a key image. *)
Definition is_push (ev : event frame) : bool :=
  match ev with EvSetKeyImage _ _ _ => true | _ => false end.

(** What the scheduler relies on between two ticks. *)
Definition scheduler_ready (st : gmap string deck_state) (dks : gmap string deck)
    (w : world) : Prop :=
  cache_ok w ∧ state w = st ∧ decks w = dks ∧ lock w = false.

(** Every page key and every button key of a deck of the file reads as an
    int. *)
Definition keys_are_ints (jd : json_deck) : Prop :=
  ∀ page_id buttons, (page_id, buttons) ∈ default [] (jd_buttons jd) →
    is_Some (py_int page_id) ∧ ∀ k b, (k, b) ∈ buttons → is_Some (py_int k).

(** The value of the last item whose key reads as [n]. *)
Fixpoint last_for {V} (n : Z) (items : list (string * V)) : option V :=
  match items with
  | [] => None
  | (k, v) :: items' =>
      match last_for n items' with
      | Some v' => Some v'
      | None => if decide (py_int k = Some n) then Some v else None
      end
  end.

(** The keys pressed, and the keys released, in order. *)
Definition presses (t : list (event frame)) : list key_obj :=
  omap (λ ev, match ev with EvPress k => Some k | _ => None end) t.
Definition releases (t : list (event frame)) : list key_obj :=
  omap (λ ev, match ev with EvRelease k => Some k | _ => None end) t.

(** Every shown button without a cache entry has an image that
    [_render_key_image] can produce. *)
Definition renderable (w : world) : Prop :=
  ∀ d ds dk b bs,
    state w !! d = Some ds → decks w !! d = Some dk →
    page_buttons ds (page_of (state w) d) !! b = Some bs →
    image_cache w !! cache_key d (page_of (state w) d) b = None →
    is_Some (_render_key_image dk bs).

End Vocabulary.

(** ** A concrete platform

    One deck ["D"], frames numbered by naturals.  An icon named
    ["spin.gif"] decodes to five frames at 100 ms each, ["gone.png"] cannot
    be opened, anything else is a single still frame.  Every command starts
    except ["nosuchprogram"].  The keyboard takes the four named keys and
    every single character, and types everything but the bell character. *)
Module Demo.

Definition render_key_image (_ : unit) (b : button) : option (list nat * float) :=
  if decide (b_icon b = Some "spin.gif") then
    Some ([0; 1; 2; 3; 4]%nat, PrimFloat.div 1000 100)
  else if decide (b_icon b = Some "gone.png") then None
  else Some ([0%nat], Flt.zero).

(** [int] on a non-empty run of decimal digits. *)
Fixpoint digits (s : string) (acc : Z) : option Z :=
  match s with
  | EmptyString => Some acc
  | String c s' =>
      let n := Z.of_N (N_of_ascii c) in
      if (48 <=? n) && (n <=? 57) then digits s' (10 * acc + (n - 48)) else None
  end.

Definition parse_int (s : string) : option Z :=
  match s with
  | EmptyString => None
  | _ => digits s 0
  end.

#[local] Instance platform : Platform := {|
  frame := nat;
  deck := unit;
  _render_key_image := render_key_image;
  popen_ok := λ args, negb (bool_decide (args = ["nosuchprogram"]));
  Key_hasattr := λ name, bool_decide (name ∈ ["ctrl"; "alt"; "shift"; "enter"]);
  key_error := λ k,
    match k with
    | KeyAttr _ => None
    | KeyLiteral s => if (String.length s =? 1)%nat then None else Some ValueError
    end;
  char_ok := λ c, negb (Ascii.eqb c "007"%char);
  py_int := parse_int;
  CONFIG_FILE_VERSION := 1;
  STATE_FILE := "state.json";
|}.

(** Deck ["D"] is plugged in and nothing is configured. *)
Definition fresh : world := World ∅ ∅ {[ "D" := tt ]} false [].

Definition with_brightness (b : Z) : world :=
  World {[ "D" := DeckState None (Some b) None ]} ∅ {[ "D" := tt ]} false [].

(** Key 0 of page 0 of ["D"] is configured as [b]; nothing is rendered yet. *)
Definition with_button (b : button) : world :=
  World {[ "D" := DeckState (Some {[ 0 := {[ 0 := b ]} ]}) None None ]} ∅
        {[ "D" := tt ]} false [].

(** An animated icon, and a label without an icon. *)
Definition spinner : button :=
  Button None (Some "spin.gif") None None None None None None.
Definition label : button :=
  Button (Some "hello") None None None None None None None.

(** The readings of a clock that ticks every 10 ms for 2000 ms. *)
Definition clock : list Z := map (λ k, 10 * Z.of_nat k) (seq 0 200).

(** A command and a text to type on the same key. *)
Definition launcher : button :=
  Button None None None (Some "ls  -l") None (Some "hi") None None.
Definition broken_launcher : button :=
  Button None None None (Some "nosuchprogram") None (Some "hi") None None.

(** An icon file that cannot be opened. *)
Definition broken_icon : button :=
  Button None (Some "gone.png") None None None None None None.

(** A state file of the right version whose only deck has the page key
    ["first"]. *)
Definition bad_page_key : config_json :=
  ConfigJson (Some 1) (Some [("D", JsonDeck (Some [("first", [])]) None None)]).

(** A state file of the right version: deck ["D"], page 0, button 3 with a
    label, brightness 40. *)
Definition good_file : config_json :=
  ConfigJson (Some 1)
    (Some [("D", JsonDeck (Some [("0", [("3", label)])]) (Some 40) None)]).

End Demo.

(** ** Properties *)

Section Facts.

Context `{Platform}.

(** *** The monad *)

Lemma bind_unfold {A B} (m : M A) (f : A → M B) (w : world) :
  (m ≫= f) w =
  match m w with
  | (Returns a, w') => f a w'
  | (Raises e, w') => (Raises e, w')
  | (Blocks, w') => (Blocks, w')
  end.
Proof. reflexivity. Qed.

Lemma bind_returns {A B} (m : M A) (f : A → M B) (w w' : world) (a : A) :
  m w = (Returns a, w') → (m ≫= f) w = f a w'.
Proof. intros E. rewrite bind_unfold, E. reflexivity. Qed.

Lemma after_bind_stop {A B} (m : M A) (f : A → M B) (w : world) :
  (∀ a, result m w ≠ Returns a) → after (m ≫= f) w = after m w.
Proof.
  unfold after, result. rewrite bind_unfold.
  destruct (m w) as [[a|e|] w']; simpl; intros Hne; [|done..].
  by destruct (Hne a).
Qed.

Lemma invariant_bind {A B} (P : world → Prop) (m : M A) (f : A → M B) :
  invariant P m → (∀ a, invariant P (f a)) → invariant P (m ≫= f).
Proof.
  intros Hm Hf w HP. specialize (Hm w HP). unfold after in *.
  rewrite bind_unfold. destruct (m w) as [[a|e|] w']; simpl in *; [|done..].
  by apply Hf.
Qed.

Lemma invariant_ret {A} (P : world → Prop) (a : A) : invariant P (mret a).
Proof. by intros w. Qed.

Lemma invariant_raise {A} (P : world → Prop) (e : exn) : invariant P (raise (A:=A) e).
Proof. by intros w. Qed.

Lemma invariant_gets {A} (P : world → Prop) (f : world → A) : invariant P (gets f).
Proof. by intros w. Qed.

Lemma invariant_from_option {A} (P : world → Prop) (e : exn) (o : option A) :
  invariant P (from_option e o).
Proof. destruct o; [apply invariant_ret | apply invariant_raise]. Qed.

Lemma invariant_modify (P : world → Prop) (f : world → world) :
  (∀ w, P w → P (f w)) → invariant P (modify f).
Proof. intros Hf w. apply Hf. Qed.

Lemma invariant_when (P : world → Prop) (c : bool) (m : M unit) :
  invariant P m → invariant P (when c m).
Proof. destruct c; [done | intros _; apply invariant_ret]. Qed.

Lemma invariant_for_each {A} (P : world → Prop) (l : list A) (body : A → M unit) :
  (∀ x, x ∈ l → invariant P (body x)) → invariant P (for_each l body).
Proof.
  induction l as [|x l IH]; intros Hbody; simpl.
  - apply invariant_ret.
  - apply invariant_bind.
    + apply Hbody. by left.
    + intros _. apply IH. intros y Hy. apply Hbody. by right.
Qed.

Lemma invariant_acquire (P : world → Prop) :
  (∀ w, P w → P (with_lock true w)) → invariant P acquire.
Proof. intros HP w Hw. unfold after, acquire. destruct (lock w); simpl; auto. Qed.

Ltac inv_step :=
  match goal with
  | |- invariant _ (_ ≫= _) => apply invariant_bind; [|intros ?]
  | |- invariant _ (mret _) => apply invariant_ret
  | |- invariant _ (raise _) => apply invariant_raise
  | |- invariant _ (gets _) => apply invariant_gets
  | |- invariant _ (from_option _ _) => apply invariant_from_option
  | |- invariant _ (when _ _) => apply invariant_when
  | |- invariant _ (modify _) => apply invariant_modify; intros ? ?; simpl
  | |- invariant _ acquire => apply invariant_acquire; intros ? ?; simpl
  | |- invariant _ (match ?x with _ => _ end) => destruct x
  end.

Ltac inv_auto := repeat inv_step.

(** Runs straight-line monadic code. *)
Ltac mrun :=
  repeat progress
    (unfold result, after, _save_state, export_config, set_cache, cache_pop, emit,
       release, when, modify, gets, raise, from_option, mbind, M_bind, mret, M_ret;
     cbn).

(** *** Brightness *)

Lemma get_brightness_run (deck_id : string) (w : world) :
  get_brightness deck_id w = (Returns (brightness_of (state w) deck_id), w).
Proof. reflexivity. Qed.

Lemma get_page_run (deck_id : string) (w : world) :
  get_page deck_id w = (Returns (page_of (state w) deck_id), w).
Proof. reflexivity. Qed.

Lemma set_brightness_run (deck_id : string) (b : Z) (w : world) :
  is_Some (decks w !! deck_id) →
  result (set_brightness deck_id b) w = Returns tt ∧
  brightness_of (state (after (set_brightness deck_id b) w)) deck_id = b ∧
  (∀ d, d ≠ deck_id →
     brightness_of (state (after (set_brightness deck_id b) w)) d =
     brightness_of (state w) d).
Proof.
  intros [dk Hdk]. unfold set_brightness, deck_setitem, brightness_of. mrun.
  rewrite Hdk. cbn. split; [done|]. split.
  - by rewrite lookup_insert_eq.
  - intros d Hd. by rewrite lookup_insert_ne.
Qed.


Lemma change_brightness_run (deck_id : string) (amount : Z) (w : world) :
  change_brightness deck_id amount w =
  set_brightness deck_id (Z.max (Z.min (brightness_of (state w) deck_id + amount) 100) 0) w.
Proof. reflexivity. Qed.

(** *** What a render pass leaves alone *)

Lemma render_button_state_inv (Q : gmap string deck_state → Prop) dk deck_id page item :
  invariant (λ w, Q (state w)) (render_button dk deck_id page item).
Proof. destruct item. unfold render_button, set_cache. inv_auto; done. Qed.

Lemma render_state_inv (Q : gmap string deck_state → Prop) :
  invariant (λ w, Q (state w)) render.
Proof.
  unfold render, release. inv_auto; try done.
  apply invariant_for_each. intros [deck_id ds] _. unfold render_deck, get_page.
  inv_auto. apply invariant_for_each. intros item _. apply render_button_state_inv.
Qed.

Lemma render_trace_inv (Q : list (event frame) → Prop) :
  invariant (λ w, Q (trace w)) render.
Proof.
  unfold render, release. inv_auto; try done.
  apply invariant_for_each. intros [deck_id ds] _. unfold render_deck, get_page.
  inv_auto. apply invariant_for_each. intros [b bs] _.
  unfold render_button, set_cache. inv_auto; done.
Qed.

Lemma render_state (w : world) : state (after render w) = state w.
Proof. by apply (render_state_inv (λ st, st = state w)). Qed.

Lemma render_trace (w : world) : trace (after render w) = trace w.
Proof. by apply (render_trace_inv (λ t, t = trace w)). Qed.

Lemma save_state_state_inv (Q : gmap string deck_state → Prop) :
  invariant (λ w, Q (state w)) _save_state.
Proof. unfold _save_state, export_config, emit. inv_auto. done. Qed.

(** *** The button tree *)

Lemma lookup_button_put_eq deck_id page btn b st :
  lookup_button (put_button deck_id page btn b st) deck_id page btn = Some b.
Proof.
  unfold lookup_button, put_button. rewrite lookup_insert_eq. cbn.
  rewrite lookup_insert_eq. cbn. by rewrite lookup_insert_eq.
Qed.

Lemma lookup_button_put_ne deck_id page btn b st d p k :
  (d, p, k) ≠ (deck_id, page, btn) →
  lookup_button (put_button deck_id page btn b st) d p k = lookup_button st d p k.
Proof.
  intros Hne. unfold lookup_button, put_button.
  destruct (decide (d = deck_id)) as [->|Hd]; [|by rewrite lookup_insert_ne].
  rewrite lookup_insert_eq. cbn.
  destruct (decide (p = page)) as [->|Hp].
  - rewrite lookup_insert_eq. cbn.
    assert (k ≠ btn) by congruence. rewrite lookup_insert_ne by done.
    destruct (st !! deck_id) as [ds|]; cbn; [|done].
    destruct (ds_buttons ds) as [bs|]; cbn; [|done].
    by destruct (bs !! page).
  - rewrite lookup_insert_ne by done.
    destruct (st !! deck_id) as [ds|]; cbn; [|done].
    by destruct (ds_buttons ds).
Qed.

Lemma put_button_brightness deck_id page btn b st d :
  brightness_of (put_button deck_id page btn b st) d = brightness_of st d.
Proof.
  unfold brightness_of, put_button. cbn.
  destruct (decide (d = deck_id)) as [->|Hd].
  - by rewrite lookup_insert_eq.
  - by rewrite lookup_insert_ne.
Qed.

Lemma put_button_page deck_id page btn b st d :
  page_of (put_button deck_id page btn b st) d = page_of st d.
Proof.
  unfold page_of, put_button. cbn.
  destruct (decide (d = deck_id)) as [->|Hd].
  - by rewrite lookup_insert_eq.
  - by rewrite lookup_insert_ne.
Qed.

Lemma button_state_run deck_id page btn (w : world) :
  _button_state deck_id page btn w =
  (Returns (default empty_button (lookup_button (state w) deck_id page btn)),
   with_state (put_button deck_id page btn
     (default empty_button (lookup_button (state w) deck_id page btn)) (state w)) w).
Proof. reflexivity. Qed.


(** C5: on a registered deck [change_brightness] returns, and the
    brightness it stores (and sends to the device) is the old brightness
    plus the delta, clamped into [0,100]: 95 and +20 give 100, 5 and -20
    give 0. *)
Theorem C5_change_brightness_clamps (deck_id : string) (amount : Z) (w : world) :
  is_Some (decks w !! deck_id) →
  let clamped := Z.max (Z.min (brightness_of (state w) deck_id + amount) 100) 0 in
  let w' := after (change_brightness deck_id amount) w in
  result (change_brightness deck_id amount) w = Returns tt ∧
  get_brightness deck_id w' = (Returns clamped, w') ∧
  0 ≤ clamped ≤ 100 ∧
  In (EvSetBrightness deck_id clamped) (trace w') ∧
  (brightness_of (state w) deck_id = 95 → amount = 20 →
     brightness_of (state w') deck_id = 100) ∧
  (brightness_of (state w) deck_id = 5 → amount = -20 →
     brightness_of (state w') deck_id = 0).
Proof.
  intros Hdk clamped w'.
  destruct (set_brightness_run deck_id clamped w Hdk) as (Hres & Hb & _).
  assert (Hw' : brightness_of (state w') deck_id = clamped) by exact Hb.
  split; [exact Hres|]. split; [by rewrite get_brightness_run, Hw'|].
  split; [subst clamped; lia|]. split.
  - subst w'. unfold after. rewrite change_brightness_run. fold clamped.
    destruct Hdk as [dk Hdk]. unfold set_brightness, deck_setitem. mrun.
    rewrite Hdk. cbn. apply in_or_app. left. apply in_or_app. right. by left.
  - rewrite Hw'. subst clamped. split; intros -> ->; reflexivity.
Qed.

(** *** Brightness stays a percentage *)

Lemma deck_setitem_brightness_range deck_id (b : Z) :
  0 ≤ b ≤ 100 →
  invariant (λ w, brightness_in_range (state w))
    (deck_setitem deck_id (λ ds, DeckState (ds_buttons ds) (Some b) (ds_page ds))).
Proof.
  intros Hb. unfold deck_setitem. apply invariant_modify. intros w Hw d. cbn.
  unfold brightness_of. destruct (decide (d = deck_id)) as [->|Hd].
  - by rewrite lookup_insert_eq.
  - rewrite lookup_insert_ne by done. apply Hw.
Qed.

Lemma set_brightness_range deck_id (b : Z) :
  0 ≤ b ≤ 100 → invariant (λ w, brightness_in_range (state w)) (set_brightness deck_id b).
Proof.
  intros Hb. unfold set_brightness, emit. inv_auto; try done.
  - by apply deck_setitem_brightness_range.
  - apply save_state_state_inv.
Qed.

Lemma change_brightness_range deck_id (amount : Z) :
  invariant (λ w, brightness_in_range (state w)) (change_brightness deck_id amount).
Proof.
  unfold change_brightness, get_brightness. inv_auto.
  apply set_brightness_range. lia.
Qed.

Lemma button_state_range deck_id page btn :
  invariant (λ w, brightness_in_range (state w)) (_button_state deck_id page btn).
Proof.
  intros w Hw d. unfold after. rewrite button_state_run. cbn.
  rewrite put_button_brightness. apply Hw.
Qed.

Lemma press_keys_state_inv (Q : gmap string deck_state → Prop) keys :
  invariant (λ w, Q (state w)) (press_keys keys).
Proof.
  unfold press_keys. apply invariant_for_each. intros section _. inv_auto.
  - apply invariant_for_each. intros k _.
    unfold keyboard_press, emit. inv_auto. done.
  - apply invariant_for_each. intros k _.
    unfold keyboard_release, emit. inv_auto. done.
Qed.

Lemma keyboard_type_state_inv (Q : gmap string deck_state → Prop) text :
  invariant (λ w, Q (state w)) (keyboard_type text).
Proof.
  unfold keyboard_type, emit. destruct (String.eqb _ _); inv_auto; done.
Qed.

Lemma Popen_state_inv (Q : gmap string deck_state → Prop) args :
  invariant (λ w, Q (state w)) (Popen args).
Proof. unfold Popen, emit. inv_auto; done. Qed.

Lemma set_page_range deck_id page :
  invariant (λ w, brightness_in_range (state w)) (set_page deck_id page).
Proof.
  unfold set_page, deck_setitem. inv_auto.
  - intros d. unfold brightness_of. destruct (decide (d = deck_id)) as [->|Hd].
    + rewrite lookup_insert_eq. cbn. apply (H0 deck_id).
    + rewrite lookup_insert_ne by done. apply (H0 d).
  - apply render_state_inv.
  - apply save_state_state_inv.
Qed.

Lemma key_change_callback_range deck_id key pressed :
  invariant (λ w, brightness_in_range (state w)) (_key_change_callback deck_id key pressed).
Proof.
  unfold _key_change_callback, get_page, get_button_command, get_button_keys,
    get_button_write, get_button_change_brightness, get_button_switch_page, emit.
  inv_auto; try done;
    first [ apply button_state_range | apply Popen_state_inv | apply press_keys_state_inv
          | apply keyboard_type_state_inv
          | apply change_brightness_range | apply set_page_range ].
Qed.

(** C8, as the code has it: [change_brightness] and a key event keep every
    deck's brightness in [0,100]; [set_brightness] stores its argument as it
    is given, so it keeps the bound exactly when the argument is in [0,100]. *)
Theorem C8_brightness_range_amended (w : world) :
  brightness_in_range (state w) →
  (∀ deck_id amount,
     brightness_in_range (state (after (change_brightness deck_id amount) w))) ∧
  (∀ deck_id key pressed,
     brightness_in_range (state (after (_key_change_callback deck_id key pressed) w))) ∧
  (∀ deck_id b, is_Some (decks w !! deck_id) →
     brightness_of (state (after (set_brightness deck_id b) w)) deck_id = b ∧
     (brightness_in_range (state (after (set_brightness deck_id b) w)) ↔ 0 ≤ b ≤ 100)).
Proof.
  intros Hw. split; [|split].
  - intros deck_id amount. by apply change_brightness_range.
  - intros deck_id key pressed. by apply key_change_callback_range.
  - intros deck_id b Hdk.
    destruct (set_brightness_run deck_id b w Hdk) as (_ & Hb & _).
    split; [exact Hb|]. split.
    + intros Hr. rewrite <- Hb. apply Hr.
    + intros Hb'. by apply set_brightness_range.
Qed.

(** *** Setters and getters *)

Lemma button_setitem_run deck_id page btn (assign : button → button) (w : world) :
  button_setitem deck_id page btn assign w =
  (Returns tt,
   with_state
     (put_button deck_id page btn
        (assign (default empty_button (lookup_button (state w) deck_id page btn)))
        (put_button deck_id page btn
           (default empty_button (lookup_button (state w) deck_id page btn)) (state w)))
     w).
Proof. reflexivity. Qed.

(** After the assignment of a setter, whatever the rest of the setter does
    without writing [state] leaves the assigned button in the tree. *)
Lemma setter_stores deck_id page btn (assign : button → button) (rest : M unit) (w : world) :
  (∀ Q, invariant (λ w, Q (state w)) rest) →
  lookup_button (state (after (button_setitem deck_id page btn assign;; rest) w))
    deck_id page btn =
  Some (assign (default empty_button (lookup_button (state w) deck_id page btn))).
Proof.
  intros Hrest. unfold after.
  rewrite (bind_returns _ _ _ _ _ (button_setitem_run deck_id page btn assign w)).
  apply (Hrest (λ st, lookup_button st deck_id page btn = Some _)).
  cbn. apply lookup_button_put_eq.
Qed.

Lemma cache_pop_state_inv (Q : gmap string deck_state → Prop) key :
  invariant (λ w, Q (state w)) (cache_pop key).
Proof. unfold cache_pop. inv_auto. done. Qed.

Lemma getter_result {A} deck_id page btn (read : button → A) (w : world) :
  result (b ← _button_state deck_id page btn; mret (read b)) w =
  Returns (read (default empty_button (lookup_button (state w) deck_id page btn))).
Proof. reflexivity. Qed.

(** C9: for every triple and every value, the getter of a field called on
    the world its setter left returns the value that was set; this holds
    however the setter ended (its render pass may raise or wait on the
    lock after the field is written). *)
Theorem C9_set_get_round_trip (deck_id : string) (page btn : Z) (w : world) :
  (∀ v, result (get_button_text deck_id page btn)
          (after (set_button_text deck_id page btn v) w) = Returns v) ∧
  (∀ v, result (get_button_icon deck_id page btn)
          (after (set_button_icon deck_id page btn v) w) = Returns v) ∧
  (∀ v, result (get_button_command deck_id page btn)
          (after (set_button_command deck_id page btn v) w) = Returns v) ∧
  (∀ v, result (get_button_keys deck_id page btn)
          (after (set_button_keys deck_id page btn v) w) = Returns v) ∧
  (∀ v, result (get_button_write deck_id page btn)
          (after (set_button_write deck_id page btn v) w) = Returns v) ∧
  (∀ v, result (get_button_switch_page deck_id page btn)
          (after (set_button_switch_page deck_id page btn v) w) = Returns v) ∧
  (∀ v, result (get_button_change_brightness deck_id page btn)
          (after (set_button_change_brightness deck_id page btn v) w) = Returns v).
Proof.
  assert (Hsave : ∀ Q, invariant (λ w, Q (state w)) _save_state)
    by (intros Q; apply save_state_state_inv).
  assert (Hrender : ∀ Q, invariant (λ w, Q (state w)) (render;; _save_state)).
  { intros Q. apply invariant_bind; [apply render_state_inv | intros _; apply Hsave]. }
  assert (Hpop : ∀ key Q, invariant (λ w, Q (state w)) (cache_pop key;; render;; _save_state)).
  { intros key Q. apply invariant_bind; [apply cache_pop_state_inv | intros _; apply Hrender]. }
  repeat split; intros v.
  - unfold get_button_text, set_button_text. rewrite getter_result, setter_stores; auto.
  - unfold get_button_icon, set_button_icon. rewrite getter_result, setter_stores; auto.
  - unfold get_button_command, set_button_command. rewrite getter_result, setter_stores; auto.
  - unfold get_button_keys, set_button_keys. rewrite getter_result, setter_stores; auto.
  - unfold get_button_write, set_button_write. rewrite getter_result, setter_stores; auto.
  - unfold get_button_switch_page, set_button_switch_page.
    rewrite getter_result, setter_stores; auto.
  - unfold get_button_change_brightness, set_button_change_brightness.
    rewrite getter_result, setter_stores; auto.
Qed.

(** C10: a getter called for a triple that is not in the tree returns the
    field's default and leaves the tree with an empty button at that triple
    (for an unknown deck: a new deck entry holding only that page and
    button); nothing is written to the state file, and no other button,
    brightness or page changes. *)
Theorem C10_getters_insert_entries (deck_id : string) (page btn : Z) (w : world) :
  lookup_button (state w) deck_id page btn = None →
  let w' := with_state (put_button deck_id page btn empty_button (state w)) w in
  get_button_text deck_id page btn w = (Returns "", w') ∧
  get_button_icon deck_id page btn w = (Returns "", w') ∧
  get_button_command deck_id page btn w = (Returns "", w') ∧
  get_button_keys deck_id page btn w = (Returns "", w') ∧
  get_button_write deck_id page btn w = (Returns "", w') ∧
  get_button_switch_page deck_id page btn w = (Returns 0, w') ∧
  get_button_change_brightness deck_id page btn w = (Returns 0, w') ∧
  lookup_button (state w') deck_id page btn = Some empty_button ∧
  state w' ≠ state w ∧
  trace w' = trace w ∧
  (state w !! deck_id = None →
     state w' = <[deck_id := DeckState (Some {[page := {[btn := empty_button]}]}) None None]>
                  (state w)) ∧
  (∀ d p k, (d, p, k) ≠ (deck_id, page, btn) →
     lookup_button (state w') d p k = lookup_button (state w) d p k).
Proof.
  intros Hnone w'.
  assert (Hget : ∀ A (read : button → A),
    (b ← _button_state deck_id page btn; mret (read b)) w = (Returns (read empty_button), w')).
  { intros A read. unfold mbind, M_bind. rewrite button_state_run, Hnone. reflexivity. }
  repeat split; try apply Hget.
  - apply lookup_button_put_eq.
  - intros Heq. assert (Hl := lookup_button_put_eq deck_id page btn empty_button (state w)).
    change (put_button deck_id page btn empty_button (state w)) with (state w') in Hl.
    rewrite Heq in Hl. congruence.
  - intros Hd. cbn. unfold put_button. rewrite Hd. cbn. rewrite lookup_empty. cbn.
    reflexivity.
  - intros d p k Hne. by apply lookup_button_put_ne.
Qed.

(** *** Loading *)

(** C6: a file whose version tag (0 when the tag is missing) is not
    [CONFIG_FILE_VERSION] makes [_open_config], and so [import_config],
    raise ValueError with the world exactly as it was: the tree, the cache
    and the state file are untouched. *)
Theorem C6_version_mismatch_rejected (config : config_json) (w : world) :
  default 0 (cfg_version config) ≠ CONFIG_FILE_VERSION →
  _open_config (Some config) w = (Raises ValueError, w) ∧
  import_config (Some config) w = (Raises ValueError, w).
Proof.
  intros Hne. apply Z.eqb_neq in Hne.
  assert (Hopen : _open_config (Some config) w = (Raises ValueError, w)).
  { unfold _open_config. mrun. by rewrite Hne. }
  split; [exact Hopen|].
  unfold import_config. rewrite bind_unfold, Hopen. reflexivity.
Qed.

(** *** Key events *)

Lemma with_state_id (w : world) : with_state (state w) w = w.
Proof. by destruct w. Qed.

Lemma with_trace_nil (w : world) : with_trace (trace w ++ []) w = w.
Proof. destruct w. unfold with_trace. cbn. by rewrite app_nil_r. Qed.

Lemma put_button_id st deck_id page btn b :
  lookup_button st deck_id page btn = Some b → put_button deck_id page btn b st = st.
Proof.
  unfold lookup_button, put_button. intros Hl.
  destruct (st !! deck_id) as [[bs br pg]|] eqn:Hd; cbn in *; [|done].
  destruct bs as [bs|]; cbn in *; [|done].
  destruct (bs !! page) as [bp|] eqn:Hp; cbn in *; [|done].
  rewrite (insert_id bp btn b Hl), (insert_id bs page bp Hp).
  by apply insert_id.
Qed.

Lemma button_state_stable deck_id page btn b (w : world) :
  lookup_button (state w) deck_id page btn = Some b →
  _button_state deck_id page btn w = (Returns b, w).
Proof.
  intros Hl. rewrite button_state_run, Hl. cbn.
  by rewrite (put_button_id _ _ _ _ _ Hl), with_state_id.
Qed.

Lemma getter_stable {A} deck_id page btn b (read : button → A) (w : world) :
  lookup_button (state w) deck_id page btn = Some b →
  (x ← _button_state deck_id page btn; mret (read x)) w = (Returns (read b), w).
Proof. intros Hl. unfold mbind, M_bind. by rewrite (button_state_stable _ _ _ _ _ Hl). Qed.

Lemma key_accepted_error (k : key_obj) : key_accepted k = true → key_error k = None.
Proof. unfold key_accepted. by destruct (key_error k). Qed.

Lemma key_refused_error (k : key_obj) : key_accepted k = false → ∃ e, key_error k = Some e.
Proof. unfold key_accepted. destruct (key_error k) as [e|]; [by exists e | done]. Qed.

Lemma press_each_run (names : list string) (w : world) :
  forallb (λ key_name, key_accepted (resolve_key key_name)) names = true →
  for_each names (λ key_name, keyboard_press (resolve_key key_name)) w =
  (Returns tt,
   with_trace (trace w ++ map (λ key_name, EvPress (resolve_key key_name)) names) w).
Proof.
  revert w. induction names as [|x l IH]; intros w Hok; cbn.
  - by rewrite with_trace_nil.
  - cbn in Hok. apply andb_prop in Hok as [Hx Hl].
    rewrite bind_unfold. unfold keyboard_press. rewrite (key_accepted_error _ Hx).
    mrun. rewrite (IH _ Hl). cbn. by rewrite <- app_assoc.
Qed.

Lemma release_each_run (names : list string) (w : world) :
  forallb (λ key_name, key_accepted (resolve_key key_name)) names = true →
  for_each names (λ key_name, keyboard_release (resolve_key key_name)) w =
  (Returns tt,
   with_trace (trace w ++ map (λ key_name, EvRelease (resolve_key key_name)) names) w).
Proof.
  revert w. induction names as [|x l IH]; intros w Hok; cbn.
  - by rewrite with_trace_nil.
  - cbn in Hok. apply andb_prop in Hok as [Hx Hl].
    rewrite bind_unfold. unfold keyboard_release. rewrite (key_accepted_error _ Hx).
    mrun. rewrite (IH _ Hl). cbn. by rewrite <- app_assoc.
Qed.

(** The press loop of a chord with a refused key stops at that key. *)
Lemma press_each_refused (names : list string) (w : world) :
  forallb (λ key_name, key_accepted (resolve_key key_name)) names = false →
  ∃ e pre bad post,
    names = pre ++ bad :: post ∧
    forallb (λ key_name, key_accepted (resolve_key key_name)) pre = true ∧
    key_error (resolve_key bad) = Some e ∧
    for_each names (λ key_name, keyboard_press (resolve_key key_name)) w =
    (Raises e,
     with_trace (trace w ++ map (λ key_name, EvPress (resolve_key key_name)) pre) w).
Proof.
  revert w. induction names as [|x l IH]; intros w Hbad; [done|].
  cbn in Hbad. destruct (key_accepted (resolve_key x)) eqn:Hx.
  - cbn in Hbad.
    destruct (IH (with_trace (trace w ++ [EvPress (resolve_key x)]) w) Hbad)
      as (e & pre & bad & post & -> & Hpre & He & Hrun).
    exists e, (x :: pre), bad, post. split; [done|]. split; [cbn; by rewrite Hx|].
    split; [done|]. cbn [for_each]. rewrite bind_unfold. unfold keyboard_press at 1.
    rewrite (key_accepted_error _ Hx). mrun. rewrite Hrun. cbn. by rewrite <- app_assoc.
  - destruct (key_refused_error _ Hx) as [e He].
    exists e, [], x, l. split; [done|]. split; [done|]. split; [done|].
    cbn [for_each]. rewrite bind_unfold. unfold keyboard_press at 1. rewrite He.
    cbn. by rewrite with_trace_nil.
Qed.

Lemma chord_run (section : string) (w : world) :
  chord_accepted section = true →
  (for_each (Str.split "+" section) (λ key_name, keyboard_press (resolve_key key_name));;
   for_each (Str.split "+" section) (λ key_name, keyboard_release (resolve_key key_name))) w =
  (Returns tt, with_trace (trace w ++ chord_events section) w).
Proof.
  intros Hok. rewrite bind_unfold, (press_each_run _ _ Hok), (release_each_run _ _ Hok).
  cbn. unfold chord_events. by rewrite <- app_assoc.
Qed.

Lemma press_chords_run (sections : list string) (w : world) :
  forallb chord_accepted sections = true →
  for_each sections (λ section,
    for_each (Str.split "+" section) (λ key_name, keyboard_press (resolve_key key_name));;
    for_each (Str.split "+" section) (λ key_name, keyboard_release (resolve_key key_name))) w =
  (Returns tt, with_trace (trace w ++ concat (map chord_events sections)) w).
Proof.
  revert w. induction sections as [|s l IH]; intros w Hok; cbn [for_each map concat].
  - by rewrite with_trace_nil.
  - cbn in Hok. apply andb_prop in Hok as [Hs Hl].
    rewrite bind_unfold, (chord_run _ _ Hs), (IH _ Hl). cbn. by rewrite <- app_assoc.
Qed.

Lemma press_keys_run (keys : string) (w : world) :
  keys_accepted keys = true →
  press_keys keys w = (Returns tt, with_trace (trace w ++ key_events keys) w).
Proof. apply press_chords_run. Qed.

Lemma keyboard_type_run (text : string) (w : world) :
  typable text = true →
  keyboard_type text w = (Returns tt, with_trace (trace w ++ [EvType text]) w).
Proof. unfold typable, keyboard_type. by intros ->. Qed.

Lemma when_appends (c : bool) (m : M unit) (evs : list (event frame)) (w : world) :
  (c = true → m w = (Returns tt, with_trace (trace w ++ evs) w)) →
  when c m w = (Returns tt, with_trace (trace w ++ (if c then evs else [])) w).
Proof. destruct c; cbn; [auto | by rewrite with_trace_nil]. Qed.

Lemma set_brightness_world deck_id (b : Z) (w : world) :
  is_Some (decks w !! deck_id) →
  let st' := <[deck_id := DeckState
                 (ds_buttons (default empty_deck_state (state w !! deck_id))) (Some b)
                 (ds_page (default empty_deck_state (state w !! deck_id)))]> (state w) in
  set_brightness deck_id b w =
  (Returns tt,
   with_trace (trace w ++ [EvSetBrightness deck_id b; EvExport STATE_FILE st'])
     (with_state st' w)).
Proof.
  intros [dk Hdk] st'. unfold set_brightness, deck_setitem. mrun. rewrite Hdk. cbn.
  unfold with_trace. cbn. by rewrite <- app_assoc.
Qed.

Lemma lookup_button_deck_fields st deck_id d p k br pg :
  lookup_button
    (<[deck_id := DeckState (ds_buttons (default empty_deck_state (st !! deck_id))) br pg]> st)
    d p k = lookup_button st d p k.
Proof.
  unfold lookup_button. destruct (decide (d = deck_id)) as [->|Hd].
  - rewrite lookup_insert_eq. cbn. by destruct (st !! deck_id).
  - by rewrite lookup_insert_ne.
Qed.

Lemma set_page_run deck_id (page : Z) (w : world) :
  let st' := <[deck_id := DeckState
                 (ds_buttons (default empty_deck_state (state w !! deck_id)))
                 (ds_brightness (default empty_deck_state (state w !! deck_id)))
                 (Some page)]> (state w) in
  let w' := after (set_page deck_id page) w in
  state w' = st' ∧
  (trace w' = trace w ∧ result (set_page deck_id page) w ≠ Returns tt ∨
   trace w' = (trace w ++ [EvExport STATE_FILE st'])%list ∧
     result (set_page deck_id page) w = Returns tt).
Proof.
  intros st' w'. subst w'. unfold result, after.
  assert (Heq : set_page deck_id page w = (render;; _save_state) (with_state st' w))
    by reflexivity.
  rewrite Heq, bind_unfold.
  assert (Hs := render_state (with_state st' w)).
  assert (Ht := render_trace (with_state st' w)).
  unfold after in Hs, Ht.
  destruct (render (with_state st' w)) as [[[]|e|] w2]; cbn in *.
  - unfold _save_state, export_config. mrun. rewrite Hs, Ht. split; [done|]. by right.
  - rewrite Hs, Ht. split; [done|]. by left.
  - rewrite Hs, Ht. split; [done|]. by left.
Qed.

(** What a press does, action by action. *)
Lemma key_press_run (deck_id : string) (key : Z) (w : world) :
  let page := page_of (state w) deck_id in
  let b := default empty_button (lookup_button (state w) deck_id page key) in
  let command := default "" (b_command b) in
  let keys := default "" (b_keys b) in
  let write := default "" (b_write b) in
  let brightness_change := default 0 (b_brightness_change b) in
  let switch_page := default 0 (b_switch_page b) in
  let clamped := Z.max (Z.min (brightness_of (state w) deck_id + brightness_change) 100) 0 in
  let w' := after (_key_change_callback deck_id key true) w in
  is_Some (decks w !! deck_id) →
  (Str.truthy command = true → popen_ok (Str.split " " command) = true) →
  (Str.truthy keys = true → keys_accepted keys = true) →
  (Str.truthy write = true → typable write = true) →
  ∃ saved tail,
    trace w' = (trace w
      ++ (if Str.truthy command then [EvPopen (Str.split " " command)] else [])
      ++ (if Str.truthy keys then key_events keys else [])
      ++ (if Str.truthy write then [EvType write] else [])
      ++ (if brightness_change =? 0 then []
          else [EvSetBrightness deck_id clamped; EvExport STATE_FILE saved])
      ++ tail)%list ∧
    brightness_of (state w') deck_id =
      (if brightness_change =? 0 then brightness_of (state w) deck_id else clamped) ∧
    page_of (state w') deck_id = (if switch_page =? 0 then page else switch_page - 1) ∧
    (switch_page = 0 →
       tail = [] ∧ result (_key_change_callback deck_id key true) w = Returns tt) ∧
    (switch_page ≠ 0 →
       tail = [] ∧ result (_key_change_callback deck_id key true) w ≠ Returns tt ∨
       tail = [EvExport STATE_FILE (state w')] ∧
         result (_key_change_callback deck_id key true) w = Returns tt).
Proof.
  intros page b command keys write brightness_change switch_page clamped w' Hdk Hpopen
    Hkeys Hwrite.
  set (w1 := with_state (put_button deck_id page key b (state w)) w).
  assert (Hl1 : lookup_button (state w1) deck_id page key = Some b)
    by apply lookup_button_put_eq.
  assert (H1 : get_button_command deck_id page key w = (Returns command, w1)) by reflexivity.
  set (w2 := with_trace
    (trace w1 ++ (if Str.truthy command then [EvPopen (Str.split " " command)] else [])) w1).
  assert (H2 : when (Str.truthy command) (Popen (Str.split " " command)) w1 = (Returns tt, w2)).
  { apply when_appends. intros Ht. unfold Popen. by rewrite (Hpopen Ht). }
  assert (H3 : get_button_keys deck_id page key w2 = (Returns keys, w2))
    by exact (getter_stable deck_id page key b (λ x, default "" (b_keys x)) w2 Hl1).
  set (w3 := with_trace (trace w2 ++ (if Str.truthy keys then key_events keys else [])) w2).
  assert (H4 : when (Str.truthy keys) (press_keys keys) w2 = (Returns tt, w3)).
  { apply when_appends. intros Ht. apply press_keys_run. by apply Hkeys. }
  assert (H5 : get_button_write deck_id page key w3 = (Returns write, w3))
    by exact (getter_stable deck_id page key b (λ x, default "" (b_write x)) w3 Hl1).
  set (w4 := with_trace (trace w3 ++ (if Str.truthy write then [EvType write] else [])) w3).
  assert (H6 : when (Str.truthy write) (keyboard_type write) w3 = (Returns tt, w4)).
  { apply when_appends. intros Ht. apply keyboard_type_run. by apply Hwrite. }
  assert (H7 : get_button_change_brightness deck_id page key w4 =
               (Returns brightness_change, w4))
    by exact (getter_stable deck_id page key b (λ x, default 0 (b_brightness_change x)) w4 Hl1).
  assert (Hfront :
    _key_change_callback deck_id key true w =
    (when (negb (brightness_change =? 0)) (change_brightness deck_id brightness_change);;
     switch_page' ← get_button_switch_page deck_id page key;
     when (negb (switch_page' =? 0)) (set_page deck_id (switch_page' - 1))) w4).
  { unfold _key_change_callback, when at 1.
    rewrite (bind_returns _ _ _ _ _ (get_page_run deck_id w)). fold page.
    rewrite (bind_returns _ _ _ _ _ H1), (bind_returns _ _ _ _ _ H2).
    rewrite (bind_returns _ _ _ _ _ H3), (bind_returns _ _ _ _ _ H4).
    rewrite (bind_returns _ _ _ _ _ H5), (bind_returns _ _ _ _ _ H6).
    by rewrite (bind_returns _ _ _ _ _ H7). }
  assert (Hb4 : brightness_of (state w4) deck_id = brightness_of (state w) deck_id)
    by apply put_button_brightness.
  assert (Hp4 : page_of (state w4) deck_id = page) by apply put_button_page.
  assert (Ht4 : trace w4 = (trace w
      ++ (if Str.truthy command then [EvPopen (Str.split " " command)] else [])
      ++ (if Str.truthy keys then key_events keys else [])
      ++ (if Str.truthy write then [EvType write] else []))%list).
  { cbn. by rewrite <- !app_assoc. }
  assert (Hdk4 : is_Some (decks w4 !! deck_id)) by exact Hdk.
  (* the brightness action *)
  assert (Hbright : ∃ saved w5,
    when (negb (brightness_change =? 0)) (change_brightness deck_id brightness_change) w4 =
      (Returns tt, w5) ∧
    lookup_button (state w5) deck_id page key = Some b ∧
    page_of (state w5) deck_id = page ∧
    brightness_of (state w5) deck_id =
      (if brightness_change =? 0 then brightness_of (state w) deck_id else clamped) ∧
    trace w5 = (trace w4 ++ (if brightness_change =? 0 then []
        else [EvSetBrightness deck_id clamped; EvExport STATE_FILE saved]))%list).
  { destruct (brightness_change =? 0) eqn:Hbc; cbn.
    - exists ∅, w4. by rewrite app_nil_r.
    - rewrite change_brightness_run, Hb4. fold clamped.
      rewrite (set_brightness_world deck_id clamped w4 Hdk4).
      eexists _, _. split; [reflexivity|]. cbn. split; [|split; [|split]].
      + by rewrite lookup_button_deck_fields.
      + unfold page_of. rewrite lookup_insert_eq. cbn. apply Hp4.
      + unfold brightness_of. by rewrite lookup_insert_eq.
      + reflexivity. }
  destruct Hbright as (saved & w5 & H8 & Hl5 & Hp5 & Hb5 & Ht5).
  assert (H9 : get_button_switch_page deck_id page key w5 = (Returns switch_page, w5))
    by exact (getter_stable deck_id page key b (λ x, default 0 (b_switch_page x)) w5 Hl5).
  assert (Hall : _key_change_callback deck_id key true w =
    when (negb (switch_page =? 0)) (set_page deck_id (switch_page - 1)) w5).
  { by rewrite Hfront, (bind_returns _ _ _ _ _ H8), (bind_returns _ _ _ _ _ H9). }
  subst w'. unfold result, after. rewrite Hall. exists saved.
  destruct (switch_page =? 0) eqn:Hsp; cbn.
  - exists []. rewrite Ht5, Ht4, app_nil_r, <- !app_assoc.
    apply Z.eqb_eq in Hsp. repeat split; try done.
  - apply Z.eqb_neq in Hsp.
    destruct (set_page_run deck_id (switch_page - 1) w5) as (Hst & Htr).
    unfold result, after in Hst, Htr.
    assert (Hbr : brightness_of (state (set_page deck_id (switch_page - 1) w5).2) deck_id =
                  brightness_of (state w5) deck_id).
    { rewrite Hst. unfold brightness_of. by rewrite lookup_insert_eq. }
    assert (Hpg : page_of (state (set_page deck_id (switch_page - 1) w5).2) deck_id =
                  switch_page - 1).
    { rewrite Hst. unfold page_of. by rewrite lookup_insert_eq. }
    destruct Htr as [[Htr Hres]|[Htr Hres]].
    + exists []. rewrite Htr, Ht5, Ht4, app_nil_r, <- !app_assoc, Hbr, Hb5, Hpg.
      repeat split; try done. by left.
    + exists [EvExport STATE_FILE (state (set_page deck_id (switch_page - 1) w5).2)].
      rewrite Htr, Ht5, Ht4, <- !app_assoc, Hbr, Hb5, Hpg, Hst.
      repeat split; try done. by right.
Qed.


(** C4, as the code has it: a release does nothing at all.  A press on a
    registered deck on which no action raises - the command, if set, can be
    launched, and the keyboard accepts the keys and the text, if set - runs
    every action whose field is non-empty, in the order command, keys,
    write, brightness change, page switch: the trace grows by exactly their
    events in that order, the brightness and the page are updated, and with
    both a command and a text to write both are in the trace of the one
    press. *)
Theorem C4_press_runs_every_action_amended (deck_id : string) (key : Z) (w : world) :
  _key_change_callback deck_id key false w = (Returns tt, w) ∧
  (let page := page_of (state w) deck_id in
   let b := default empty_button (lookup_button (state w) deck_id page key) in
   let command := default "" (b_command b) in
   let keys := default "" (b_keys b) in
   let write := default "" (b_write b) in
   let brightness_change := default 0 (b_brightness_change b) in
   let switch_page := default 0 (b_switch_page b) in
   let clamped := Z.max (Z.min (brightness_of (state w) deck_id + brightness_change) 100) 0 in
   let w' := after (_key_change_callback deck_id key true) w in
   is_Some (decks w !! deck_id) →
   (Str.truthy command = true → popen_ok (Str.split " " command) = true) →
   (Str.truthy keys = true → keys_accepted keys = true) →
   (Str.truthy write = true → typable write = true) →
   (∃ saved tail,
     trace w' = (trace w
       ++ (if Str.truthy command then [EvPopen (Str.split " " command)] else [])
       ++ (if Str.truthy keys then key_events keys else [])
       ++ (if Str.truthy write then [EvType write] else [])
       ++ (if brightness_change =? 0 then []
           else [EvSetBrightness deck_id clamped; EvExport STATE_FILE saved])
       ++ tail)%list ∧
     brightness_of (state w') deck_id =
       (if brightness_change =? 0 then brightness_of (state w) deck_id else clamped) ∧
     page_of (state w') deck_id = (if switch_page =? 0 then page else switch_page - 1) ∧
     (switch_page = 0 →
        tail = [] ∧ result (_key_change_callback deck_id key true) w = Returns tt) ∧
     (switch_page ≠ 0 →
        tail = [] ∧ result (_key_change_callback deck_id key true) w ≠ Returns tt ∨
        tail = [EvExport STATE_FILE (state w')] ∧
          result (_key_change_callback deck_id key true) w = Returns tt)) ∧
   (Str.truthy command = true → Str.truthy write = true →
      In (EvPopen (Str.split " " command)) (trace w') ∧ In (EvType write) (trace w'))).
Proof.
  split; [reflexivity|].
  intros page b command keys write brightness_change switch_page clamped w' Hdk Hpopen
    Hkeys Hwrite.
  destruct (key_press_run deck_id key w Hdk Hpopen Hkeys Hwrite)
    as (saved & tail & Htr & Hrest).
  split; [by exists saved, tail|].
  intros Hc Hw. fold page b command write w' in Htr. rewrite Htr.
  fold command in Hc. fold write in Hw. rewrite Hc, Hw.
  rewrite !in_app_iff. cbn. split; [by right; left; left|].
  right. right. right. left. by left.
Qed.


(** *** Cache keys *)

Lemma dot_free_app_dot (s1 s2 : string) : ¬ dot_free (s1 +:+ String "." s2).
Proof.
  induction s1 as [|c s1 IH]; cbn.
  - intros [Hc _]. by apply Hc.
  - intros [_ Hs]. by apply IH.
Qed.

Lemma app_dot_inj (s1 s2 t1 t2 : string) :
  dot_free t1 → dot_free t2 →
  s1 +:+ String "." t1 = s2 +:+ String "." t2 → s1 = s2 ∧ t1 = t2.
Proof.
  intros Ht1 Ht2. revert s2. induction s1 as [|c s1 IH]; intros [|c2 s2]; cbn; intros Heq.
  - by inversion Heq.
  - inversion Heq as [[Hc Ht]]. subst t1. by destruct (dot_free_app_dot s2 t2).
  - inversion Heq as [[Hc Ht]]. subst t2. by destruct (dot_free_app_dot s1 t1).
  - inversion Heq as [[Hc Ht]]. destruct (IH _ Ht) as [-> ->]. done.
Qed.

Lemma pretty_N_go_dot_free (x : N) (s : string) :
  dot_free s → dot_free (pretty_N_go x s).
Proof.
  revert s. induction (N.lt_wf_0 x) as [x _ IH]; intros s Hs.
  assert (x = 0 ∨ 0 < x)%N as [->|Hx] by lia.
  - by rewrite pretty_N_go_0.
  - rewrite pretty_N_go_step by done. apply IH.
    { by apply N.div_lt. }
    split; [|done]. unfold pretty_N_char. by repeat case_match.
Qed.

Lemma pretty_N_dot_free (x : N) : dot_free (pretty x).
Proof.
  unfold pretty, pretty_N. case_decide.
  - cbn. split; done.
  - by apply pretty_N_go_dot_free.
Qed.

Lemma pretty_Z_dot_free (z : Z) : dot_free (pretty z).
Proof.
  destruct z as [|p|p]; unfold pretty, pretty_Z.
  - cbn. split; done.
  - apply pretty_N_dot_free.
  - split; [done|]. apply pretty_N_dot_free.
Qed.

Lemma cache_key_inj d1 p1 k1 d2 p2 k2 :
  cache_key d1 p1 k1 = cache_key d2 p2 k2 → d1 = d2 ∧ p1 = p2 ∧ k1 = k2.
Proof.
  unfold cache_key. intros Heq.
  assert (Hassoc : ∀ d p k : string,
    d +:+ "." +:+ p +:+ "." +:+ k = (d +:+ String "." p) +:+ String "." k).
  { intros d p k. induction d as [|c d IH]; [done|].
    change (String c d +:+ "." +:+ p +:+ "." +:+ k)
      with (String c (d +:+ "." +:+ p +:+ "." +:+ k)).
    by rewrite IH. }
  rewrite !Hassoc in Heq.
  apply app_dot_inj in Heq as [Heq Hk]; [|apply pretty_Z_dot_free..].
  apply app_dot_inj in Heq as [Hd Hp]; [|apply pretty_Z_dot_free..].
  split; [done|]. split; by apply (inj pretty).
Qed.

(** *** Loops *)

Lemma for_each_app {A} (l1 l2 : list A) (body : A → M unit) (w : world) :
  for_each (l1 ++ l2) body w = (for_each l1 body;; for_each l2 body) w.
Proof.
  revert w. induction l1 as [|x l1 IH]; intros w; cbn.
  - reflexivity.
  - rewrite !bind_unfold. destruct (body x w) as [[[]|e|] w1]; [|done..].
    rewrite IH. by rewrite bind_unfold.
Qed.

(** A loop whose body always returns and keeps [I] returns and keeps [I]. *)
Lemma for_each_returns {A} (I : world → Prop) (l : list A) (body : A → M unit) :
  (∀ x w, x ∈ l → I w → result (body x) w = Returns tt ∧ I (after (body x) w)) →
  ∀ w, I w → result (for_each l body) w = Returns tt ∧ I (after (for_each l body) w).
Proof.
  induction l as [|x l IH]; intros Hbody w Hw; cbn.
  - done.
  - destruct (Hbody x w) as [Hr Hi]; [by left|done|].
    unfold result, after in *. rewrite bind_unfold.
    destruct (body x w) as [o w1]. cbn in *. subst o.
    apply IH; [|done]. intros y w2 Hy. apply Hbody. by right.
Qed.

Lemma pushes_of_app deck_id btn (t1 t2 : list (event frame)) :
  pushes_of deck_id btn (t1 ++ t2) = pushes_of deck_id btn t1 ++ pushes_of deck_id btn t2.
Proof.
  induction t1 as [|ev t1 IH]; [done|]. destruct ev; cbn; try done.
  case_decide; cbn; by rewrite IH.
Qed.

(** *** One button of one tick *)

Lemma entry_ok_current (e : cache_entry frame) :
  entry_ok e →
  ∃ img, py_index (ce_image e) (ce_frame e) = Some img ∧
    py_mod (ce_frame e + 1) (Z.of_nat (length (ce_image e))) =
    Some ((ce_frame e + 1) mod Z.of_nat (length (ce_image e))).
Proof.
  unfold entry_ok, py_index, py_mod. intros Hok.
  destruct (nth_error (ce_image e) (Z.to_nat (ce_frame e))) as [img|] eqn:Hn.
  - exists img. split.
    + replace (0 <=? ce_frame e) with true by (symmetry; apply Z.leb_le; lia).
      replace (ce_frame e <? Z.of_nat (length (ce_image e))) with true
        by (symmetry; apply Z.ltb_lt; lia).
      done.
    + replace (Z.of_nat (length (ce_image e)) =? 0) with false
        by (symmetry; apply Z.eqb_neq; lia).
      done.
  - apply nth_error_None in Hn. lia.
Qed.

Lemma entry_ok_advanced now (e : cache_entry frame) : entry_ok e → entry_ok (advanced now e).
Proof.
  unfold entry_ok, advanced. cbn. intros Hok. apply Z.mod_pos_bound. lia.
Qed.

Lemma tick_button_run now deck_id page btn bs (w : world) (e : cache_entry frame) :
  image_cache w !! cache_key deck_id page btn = Some e → entry_ok e →
  ∃ img, py_index (ce_image e) (ce_frame e) = Some img ∧
    tick_button now deck_id page (btn, bs) w =
    (Returns tt,
     if due now e then
       with_trace (trace w ++ [EvSetKeyImage deck_id btn img])
         (with_image_cache (<[cache_key deck_id page btn := advanced now e]> (image_cache w)) w)
     else w).
Proof.
  intros Hc Hok. destruct (entry_ok_current e Hok) as (img & Himg & Hmod).
  exists img. split; [done|].
  unfold tick_button. rewrite (bind_returns _ _ w w (image_cache w)) by reflexivity.
  rewrite Hc. destruct e as [image fps next_time frame_no]. unfold due, advanced. cbn in *.
  destruct (Flt.is_zero fps) eqn:Hz; cbn.
  - destruct (Flt.is_zero next_time) eqn:Hn; cbn; [|done].
    rewrite Hmod. mrun. rewrite Himg. reflexivity.
  - destruct (Flt.int_ge now next_time) eqn:Hge; cbn; [|done].
    rewrite Hmod. mrun. rewrite Himg. reflexivity.
Qed.

Lemma tick_button_skip now deck_id page btn bs (w : world) :
  image_cache w !! cache_key deck_id page btn = None →
  tick_button now deck_id page (btn, bs) w = (Returns tt, w).
Proof.
  intros Hc. unfold tick_button.
  rewrite (bind_returns _ _ w w (image_cache w)) by reflexivity. by rewrite Hc.
Qed.

(** A loop over the items of a dict visits the item under [k] once: the
    other items keep [I1] before it and [I2] after it. *)
Lemma for_each_map_visit `{Countable K} {V} (m : gmap K V) (k : K) (v : V)
    (body : K * V → M unit) (I1 I2 : world → Prop) :
  m !! k = Some v →
  (∀ k' v' w, m !! k' = Some v' → k' ≠ k → I1 w →
     result (body (k', v')) w = Returns tt ∧ I1 (after (body (k', v')) w)) →
  (∀ w, I1 w → result (body (k, v)) w = Returns tt ∧ I2 (after (body (k, v)) w)) →
  (∀ k' v' w, m !! k' = Some v' → k' ≠ k → I2 w →
     result (body (k', v')) w = Returns tt ∧ I2 (after (body (k', v')) w)) →
  ∀ w, I1 w →
    result (for_each (map_to_list m) body) w = Returns tt ∧
    I2 (after (for_each (map_to_list m) body) w).
Proof.
  intros Hk Hpre Hown Hpost w Hw.
  assert (Hin : (k, v) ∈ map_to_list m) by by apply elem_of_map_to_list.
  apply list_elem_of_split in Hin as (l1 & l2 & Hl).
  assert (Hnd := NoDup_fst_map_to_list m). rewrite Hl in Hnd.
  rewrite fmap_app, fmap_cons in Hnd. cbn in Hnd.
  apply NoDup_app in Hnd as (_ & Hdisj & Hnd2). apply NoDup_cons in Hnd2 as [Hk2 _].
  assert (Hother : ∀ k' v', (k', v') ∈ l1 ∨ (k', v') ∈ l2 → m !! k' = Some v' ∧ k' ≠ k).
  { intros k' v' Hin. split.
    - apply elem_of_map_to_list. rewrite Hl. rewrite elem_of_app, elem_of_cons. tauto.
    - intros ->. destruct Hin as [Hin|Hin].
      + apply (Hdisj k); [|by left]. apply list_elem_of_fmap. by exists (k, v').
      + apply Hk2. apply list_elem_of_fmap. by exists (k, v'). }
  rewrite Hl. unfold result, after. rewrite for_each_app. cbn.
  destruct (for_each_returns I1 l1 body) with (w := w) as [Hr1 Hi1]; [|done|].
  { intros [k' v'] w1 Hin Hw1. destruct (Hother k' v') as [? ?]; [by left|]. by apply Hpre. }
  unfold result, after in Hr1, Hi1. rewrite bind_unfold.
  destruct (for_each l1 body w) as [o1 w1]. cbn in Hr1, Hi1. subst o1.
  destruct (Hown w1 Hi1) as [Hr2 Hi2]. unfold result, after in Hr2, Hi2.
  rewrite bind_unfold. destruct (body (k, v) w1) as [o2 w2]. cbn in Hr2, Hi2. subst o2.
  apply (for_each_returns I2 l2 body); [|done].
  intros [k' v'] w3 Hin Hw3. destruct (Hother k' v') as [? ?]; [by right|]. by apply Hpost.
Qed.

Lemma for_each_map_keep `{Countable K} {V} (m : gmap K V)
    (body : K * V → M unit) (I : world → Prop) :
  (∀ k' v' w, m !! k' = Some v' → I w →
     result (body (k', v')) w = Returns tt ∧ I (after (body (k', v')) w)) →
  ∀ w, I w →
    result (for_each (map_to_list m) body) w = Returns tt ∧
    I (after (for_each (map_to_list m) body) w).
Proof.
  intros Hbody. apply for_each_returns. intros [k v] w Hin Hw.
  apply Hbody; [|done]. by apply elem_of_map_to_list.
Qed.

Lemma cache_ok_insert (w : world) key (e : cache_entry frame) :
  cache_ok w → entry_ok e →
  cache_ok (with_image_cache (<[key := e]> (image_cache w)) w).
Proof.
  intros Hok He k e'. cbn. destruct (decide (k = key)) as [->|Hne].
  - rewrite lookup_insert_eq. by intros [= <-].
  - rewrite lookup_insert_ne by done. apply Hok.
Qed.

Lemma tick_button_other st dks lk key deck_id btn c pushed now d' p' b' bs (w : world) :
  cache_key d' p' b' ≠ key → ¬ (d' = deck_id ∧ b' = btn) →
  tracking st dks lk key deck_id btn c pushed w →
  result (tick_button now d' p' (b', bs)) w = Returns tt ∧
  tracking st dks lk key deck_id btn c pushed (after (tick_button now d' p' (b', bs)) w).
Proof.
  intros Hkey Hbtn (Hok & Hst & Hdk & Hlk & Hc & Hp). unfold result, after.
  destruct (image_cache w !! cache_key d' p' b') as [e|] eqn:He.
  - destruct (tick_button_run now d' p' b' bs w e He (Hok _ _ He)) as (img & _ & ->).
    cbn. split; [done|]. destruct (due now e); [|done].
    split; [|repeat split; try done].
    + apply (cache_ok_insert w); [done|]. apply entry_ok_advanced, (Hok _ _ He).
    + cbn. by rewrite lookup_insert_ne.
    + cbn. rewrite pushes_of_app. cbn. rewrite decide_False by done. by rewrite app_nil_r.
  - by rewrite (tick_button_skip now d' p' b' bs w He).
Qed.

Lemma tick_button_own st dks lk deck_id page btn e pushed now bs (w : world) :
  tracking st dks lk (cache_key deck_id page btn) deck_id btn (Some e) pushed w →
  ∃ img, py_index (ce_image e) (ce_frame e) = Some img ∧
    result (tick_button now deck_id page (btn, bs)) w = Returns tt ∧
    tracking st dks lk (cache_key deck_id page btn) deck_id btn
      (Some (if due now e then advanced now e else e))
      (pushed ++ (if due now e then [img] else []))
      (after (tick_button now deck_id page (btn, bs)) w).
Proof.
  intros (Hok & Hst & Hdk & Hlk & Hc & Hp). unfold result, after.
  destruct (tick_button_run now deck_id page btn bs w e Hc (Hok _ _ Hc)) as (img & Himg & ->).
  exists img. split; [done|]. cbn. split; [done|]. destruct (due now e).
  - split; [|repeat split; try done].
    + apply (cache_ok_insert w); [done|]. apply entry_ok_advanced, (Hok _ _ Hc).
    + cbn. by rewrite lookup_insert_eq.
    + cbn. rewrite pushes_of_app. cbn. rewrite decide_True by done. by rewrite Hp.
  - rewrite app_nil_r. done.
Qed.

(** *** One tick *)

Lemma tick_deck_other st dks lk deck_id page btn c pushed now d' ds' (w : world) :
  d' ≠ deck_id →
  tracking st dks lk (cache_key deck_id page btn) deck_id btn c pushed w →
  result (tick_deck now (d', ds')) w = Returns tt ∧
  tracking st dks lk (cache_key deck_id page btn) deck_id btn c pushed
    (after (tick_deck now (d', ds')) w).
Proof.
  intros Hd Htr. unfold result, after, tick_deck.
  rewrite (bind_returns _ _ w w (decks w)) by reflexivity.
  destruct (decks w !! d'); [|done].
  rewrite (bind_returns _ _ _ _ _ (get_page_run d' w)).
  apply for_each_map_keep; [|done]. intros b' bs w1 _ Hw1.
  apply tick_button_other; [| |done].
  - intros Heq. apply cache_key_inj in Heq. tauto.
  - tauto.
Qed.

Lemma tick_deck_own st dks lk deck_id page btn e pushed now ds (w : world) :
  is_Some (dks !! deck_id) → page = page_of st deck_id →
  is_Some (page_buttons ds page !! btn) →
  tracking st dks lk (cache_key deck_id page btn) deck_id btn (Some e) pushed w →
  ∃ img, py_index (ce_image e) (ce_frame e) = Some img ∧
    result (tick_deck now (deck_id, ds)) w = Returns tt ∧
    tracking st dks lk (cache_key deck_id page btn) deck_id btn
      (Some (if due now e then advanced now e else e))
      (pushed ++ (if due now e then [img] else []))
      (after (tick_deck now (deck_id, ds)) w).
Proof.
  intros [dk Hdk] Hpage [bs Hbs] Htr.
  destruct (entry_ok_current e) as (img & Himg & _).
  { destruct Htr as (Hok & _ & _ & _ & Hc & _). by apply (Hok _ _ Hc). }
  exists img. split; [done|].
  assert (Hst : state w = st) by apply Htr. assert (Hdks : decks w = dks) by apply Htr.
  unfold result, after, tick_deck.
  rewrite (bind_returns _ _ w w (decks w)) by reflexivity. rewrite Hdks, Hdk.
  rewrite (bind_returns _ _ _ _ _ (get_page_run deck_id w)). rewrite Hst, <- Hpage.
  apply (for_each_map_visit _ btn bs _
    (tracking st dks lk (cache_key deck_id page btn) deck_id btn (Some e) pushed)); try done.
  - intros b' bs' w1 _ Hne Hw1. apply tick_button_other; [| |done].
    + intros Heq. apply cache_key_inj in Heq. tauto.
    + tauto.
  - intros w1 Hw1.
    destruct (tick_button_own _ _ _ _ _ _ _ _ now bs w1 Hw1) as (img' & Himg' & Hr & Ht).
    assert (img' = img) as -> by congruence. done.
  - intros b' bs' w1 _ Hne Hw1. apply tick_button_other; [| |done].
    + intros Heq. apply cache_key_inj in Heq. tauto.
    + tauto.
Qed.

(** A tick on a world whose cache entries are drawable returns, and treats
    the entry of a visible button as the loop body says, once. *)
Lemma render_tick_visible now deck_id page btn e (w : world) :
  lock w = false → cache_ok w → visible w deck_id page btn →
  image_cache w !! cache_key deck_id page btn = Some e →
  ∃ img, py_index (ce_image e) (ce_frame e) = Some img ∧
    result (render_tick now) w = Returns tt ∧
    tracking (state w) (decks w) false (cache_key deck_id page btn) deck_id btn
      (Some (if due now e then advanced now e else e))
      (pushes_of deck_id btn (trace w) ++ (if due now e then [img] else []))
      (after (render_tick now) w).
Proof.
  intros Hlock Hok (Hdk & Hpage & ds & Hds & Hbtn) Hc.
  destruct (entry_ok_current e (Hok _ _ Hc)) as (img & Himg & _).
  exists img. split; [done|].
  unfold result, after, render_tick.
  assert (Hacq : acquire w = (Returns tt, with_lock true w))
    by (unfold acquire; by rewrite Hlock).
  rewrite (bind_returns _ _ _ _ _ Hacq).
  rewrite (bind_returns _ _ (with_lock true w) (with_lock true w) (state w)) by reflexivity.
  destruct (for_each_map_visit (state w) deck_id ds (tick_deck now)
    (tracking (state w) (decks w) true (cache_key deck_id page btn) deck_id btn
       (Some e) (pushes_of deck_id btn (trace w)))
    (tracking (state w) (decks w) true (cache_key deck_id page btn) deck_id btn
       (Some (if due now e then advanced now e else e))
       (pushes_of deck_id btn (trace w) ++ (if due now e then [img] else []))) Hds)
    with (w := with_lock true w) as [Hr Ht].
  - intros d' ds' w1 _ Hne Hw1. by apply tick_deck_other.
  - intros w1 Hw1.
    destruct (tick_deck_own _ _ _ _ _ _ _ _ now ds w1 Hdk Hpage Hbtn Hw1)
      as (img' & Himg' & Hr & Ht).
    assert (img' = img) as -> by congruence. done.
  - intros d' ds' w1 _ Hne Hw1. by apply tick_deck_other.
  - done.
  - unfold result, after in Hr, Ht. rewrite bind_unfold.
    destruct (for_each (map_to_list (state w)) (tick_deck now) (with_lock true w)) as [o w1].
    cbn in Hr, Ht. subst o. cbn. split; [done|].
    destruct Ht as (? & ? & ? & ? & ? & ?). done.
Qed.

(** *** The render pass *)

Lemma invariant_gets_bind {A B} (P : world → Prop) (g : world → A) (f : A → M B) :
  (∀ w, P w → P (after (f (g w)) w)) → invariant P (gets g ≫= f).
Proof. intros Hf w Hw. by apply Hf. Qed.

Lemma invariant_map_each `{Countable K} {V} (P : world → Prop) (m : gmap K V)
    (body : K * V → M unit) :
  (∀ k v, m !! k = Some v → invariant P (body (k, v))) →
  invariant P (for_each (map_to_list m) body).
Proof.
  intros Hbody. apply invariant_for_each. intros [k v] Hin.
  apply Hbody. by apply elem_of_map_to_list.
Qed.

Lemma lookup_button_page_buttons st deck_id ds page btn :
  st !! deck_id = Some ds →
  lookup_button st deck_id page btn = page_buttons ds page !! btn.
Proof.
  intros Hds. unfold lookup_button, page_buttons. rewrite Hds. cbn.
  destruct (ds_buttons ds) as [bs|]; cbn; [|done].
  by destruct (bs !! page).
Qed.

Lemma render_button_run dk deck_id page btn bs (w : world) :
  render_button dk deck_id page (btn, bs) w =
  match image_cache w !! cache_key deck_id page btn with
  | Some e =>
      (Returns tt,
       with_image_cache (<[cache_key deck_id page btn := reset e]> (image_cache w)) w)
  | None =>
      match _render_key_image dk bs with
      | Some (image, fps) =>
          (Returns tt,
           with_image_cache
             (<[cache_key deck_id page btn := CacheEntry image fps Flt.zero 0]>
                (image_cache w)) w)
      | None => (Raises ImageError, w)
      end
  end.
Proof.
  unfold render_button. rewrite (bind_returns _ _ w w (image_cache w)) by reflexivity.
  destruct (image_cache w !! cache_key deck_id page btn); [done|].
  destruct (_render_key_image dk bs) as [[image fps]|]; done.
Qed.

(** The shape of an invariant of [render]: it may depend on the tree and the
    registry, which the pass only reads, and on the cache. *)
Lemma render_deck_invariant (st : gmap string deck_state) (dks : gmap string deck)
    (C : gmap string (cache_entry frame) → Prop) deck_id ds :
  (∀ dk btn bs (w : world),
     dks !! deck_id = Some dk →
     page_buttons ds (page_of st deck_id) !! btn = Some bs →
     C (image_cache w) →
     C (image_cache (after (render_button dk deck_id (page_of st deck_id) (btn, bs)) w))) →
  invariant (λ w, state w = st ∧ decks w = dks ∧ C (image_cache w))
    (render_deck (deck_id, ds)).
Proof.
  intros Hbutton.
  assert (Hb : ∀ dk btn bs,
    dks !! deck_id = Some dk →
    page_buttons ds (page_of st deck_id) !! btn = Some bs →
    invariant (λ w, state w = st ∧ decks w = dks ∧ C (image_cache w))
      (render_button dk deck_id (page_of st deck_id) (btn, bs))).
  { intros dk btn bs Hdk Hbs w (Hst & Hdks & HC).
    split; [|split]; [..|by eapply Hbutton].
    - rewrite <- Hst. apply (render_button_state_inv (λ s, s = state w)). done.
    - rewrite <- Hdks. unfold after. rewrite render_button_run.
      destruct (image_cache w !! _); [done|].
      by destruct (_render_key_image dk bs) as [[??]|]. }
  unfold render_deck.
  apply invariant_gets_bind. intros w (Hst & Hdks & HC). revert w Hst Hdks HC.
  cut (invariant (λ w, state w = st ∧ decks w = dks ∧ C (image_cache w))
         (match dks !! deck_id with
          | Some dk =>
              page ← get_page deck_id;
              for_each (map_to_list (page_buttons ds page)) (render_button dk deck_id page)
          | None => mret tt
          end)).
  { intros Hinv w Hst Hdks HC. rewrite Hdks. by apply Hinv. }
  destruct (dks !! deck_id) as [dk|] eqn:Hdk; [|apply invariant_ret].
  unfold get_page. apply invariant_gets_bind. intros w (Hst & Hdks & HC).
  rewrite Hst. fold (page_of st deck_id).
  revert w Hst Hdks HC.
  cut (invariant (λ w, state w = st ∧ decks w = dks ∧ C (image_cache w))
         (for_each (map_to_list (page_buttons ds (page_of st deck_id)))
            (render_button dk deck_id (page_of st deck_id)))).
  { intros Hinv w Hst Hdks HC. by apply Hinv. }
  apply invariant_map_each. intros btn bs Hbs. by eapply Hb.
Qed.

Lemma render_invariant (st : gmap string deck_state) (dks : gmap string deck)
    (C : gmap string (cache_entry frame) → Prop) :
  (∀ deck_id ds dk btn bs (w : world),
     st !! deck_id = Some ds → dks !! deck_id = Some dk →
     page_buttons ds (page_of st deck_id) !! btn = Some bs →
     C (image_cache w) →
     C (image_cache (after (render_button dk deck_id (page_of st deck_id) (btn, bs)) w))) →
  invariant (λ w, state w = st ∧ decks w = dks ∧ C (image_cache w)) render.
Proof.
  intros Hbutton. unfold render. apply invariant_bind.
  { apply invariant_acquire. by intros w. }
  intros _. apply invariant_gets_bind. intros w (Hst & Hdks & HC).
  revert w Hst Hdks HC.
  cut (invariant (λ w, state w = st ∧ decks w = dks ∧ C (image_cache w))
         (for_each (map_to_list st) render_deck;; release)).
  { intros Hinv w Hst Hdks HC. rewrite Hst. by apply Hinv. }
  apply invariant_bind; [|intros _; by apply invariant_modify].
  apply invariant_map_each. intros deck_id ds Hds.
  apply render_deck_invariant. intros dk btn bs w Hdk Hbs HC. by eapply Hbutton.
Qed.

Lemma render_cache_invariant (C : gmap string (cache_entry frame) → Prop) (w : world) :
  (∀ deck_id ds dk btn bs (w1 : world),
     state w !! deck_id = Some ds → decks w !! deck_id = Some dk →
     page_buttons ds (page_of (state w) deck_id) !! btn = Some bs →
     C (image_cache w1) →
     C (image_cache
          (after (render_button dk deck_id (page_of (state w) deck_id) (btn, bs)) w1))) →
  C (image_cache w) → C (image_cache (after render w)).
Proof.
  intros Hbutton HC.
  by destruct (render_invariant (state w) (decks w) C Hbutton w) as (_ & _ & HC').
Qed.

(** The cache at a key that is not the button's. *)
Lemma render_button_other dk deck_id page btn bs key (w : world) :
  cache_key deck_id page btn ≠ key →
  image_cache (after (render_button dk deck_id page (btn, bs)) w) !! key =
  image_cache w !! key.
Proof.
  intros Hne. unfold after. rewrite render_button_run.
  destruct (image_cache w !! cache_key deck_id page btn); cbn.
  - by rewrite lookup_insert_ne.
  - destruct (_render_key_image dk bs) as [[??]|]; cbn; [|done].
    by rewrite lookup_insert_ne.
Qed.

Lemma render_keeps_drawable :
  renders_frames → invariant cache_ok render.
Proof.
  intros Hframes w Hok.
  refine (render_cache_invariant (λ c, ∀ k e, c !! k = Some e → entry_ok e) w _ Hok).
  intros deck_id ds dk btn bs w1 _ _ _ HC. unfold after. rewrite render_button_run.
  destruct (image_cache w1 !! cache_key deck_id (page_of (state w) deck_id) btn)
    as [e|] eqn:He; cbn.
  - intros k e'. destruct (decide (k = cache_key deck_id (page_of (state w) deck_id) btn))
      as [->|Hne].
    + rewrite lookup_insert_eq. intros [= <-]. unfold entry_ok, reset. cbn.
      specialize (HC _ _ He). unfold entry_ok in HC. lia.
    + rewrite lookup_insert_ne by done. apply HC.
  - destruct (_render_key_image dk bs) as [[image fps]|] eqn:Hr; cbn; [|done].
    intros k e'. destruct (decide (k = cache_key deck_id (page_of (state w) deck_id) btn))
      as [->|Hne].
    + rewrite lookup_insert_eq. intros [= <-]. unfold entry_ok. cbn.
      apply Hframes in Hr. destruct image; [done|]. cbn. lia.
    + rewrite lookup_insert_ne by done. apply HC.
Qed.

Lemma render_fresh_or_absent st dks deck_id page btn b :
  lookup_button st deck_id page btn = Some b →
  invariant (λ w, state w = st ∧ decks w = dks ∧
               fresh_or_absent dks deck_id b (cache_key deck_id page btn) (image_cache w))
    render.
Proof.
  intros Hb. apply render_invariant. intros d' ds dk b' bs w Hds Hdk Hbs HC.
  destruct (decide (cache_key d' (page_of st d') b' = cache_key deck_id page btn))
    as [Heq|Hne].
  - apply cache_key_inj in Heq as (-> & Hp & ->). rewrite Hp in *.
    rewrite (lookup_button_page_buttons _ _ _ _ _ Hds), Hbs in Hb.
    injection Hb as ->.
    unfold after. rewrite render_button_run. destruct HC as [Hnone|Hfresh].
    + rewrite Hnone. destruct (_render_key_image dk b) as [[image fps]|] eqn:Hr; cbn.
      * right. exists dk, image, fps. by rewrite lookup_insert_eq.
      * by left.
    + destruct Hfresh as (dk' & image & fps & Hdk' & Hr & Hc). rewrite Hc. cbn.
      right. exists dk', image, fps. by rewrite lookup_insert_eq.
  - unfold fresh_or_absent. by rewrite (render_button_other _ _ _ _ _ _ _ Hne).
Qed.

Lemma render_keeps_entries (c0 : gmap string (cache_entry frame)) :
  invariant (λ w, keeps_entries c0 (image_cache w)) render.
Proof.
  intros w Hw.
  refine (render_cache_invariant (keeps_entries c0) w _ Hw).
  intros deck_id ds dk btn bs w1 _ _ _ HC key e He.
  destruct (HC key e He) as (e' & He' & Hi & Hf).
  unfold after. rewrite render_button_run.
  destruct (decide (key = cache_key deck_id (page_of (state w) deck_id) btn)) as [->|Hne].
  - rewrite He'. cbn. exists (reset e'). by rewrite lookup_insert_eq.
  - exists e'. destruct (image_cache w1 !! cache_key _ _ _); cbn.
    + by rewrite lookup_insert_ne.
    + destruct (_render_key_image dk bs) as [[??]|]; cbn; [|done].
      by rewrite lookup_insert_ne.
Qed.

(** *** A render pass that returns *)

Lemma for_each_app_returns {A} (l1 l2 : list A) (body : A → M unit) (w w' : world) :
  for_each (l1 ++ l2) body w = (Returns tt, w') →
  ∃ w1, for_each l1 body w = (Returns tt, w1) ∧ for_each l2 body w1 = (Returns tt, w').
Proof.
  rewrite for_each_app, bind_unfold.
  destruct (for_each l1 body w) as [[[]|e|] w1]; try discriminate.
  intros Heq. by exists w1.
Qed.

Lemma invariant_returned {A} (P : world → Prop) (m : M A) (w w' : world) (a : A) :
  invariant P m → P w → m w = (Returns a, w') → P w'.
Proof. intros Hinv Hw Heq. specialize (Hinv w Hw). unfold after in Hinv. by rewrite Heq in Hinv. Qed.

(** When a loop over the items of a dict returns, the item under [k] was
    visited: [I1] held before its turn and [I2] holds from then on. *)
Lemma for_each_map_visited `{Countable K} {V} (m : gmap K V) (k : K) (v : V)
    (body : K * V → M unit) (I1 I2 : world → Prop) :
  m !! k = Some v →
  (∀ k' v', m !! k' = Some v' → k' ≠ k → invariant I1 (body (k', v'))) →
  (∀ w w1, I1 w → body (k, v) w = (Returns tt, w1) → I2 w1) →
  (∀ k' v', m !! k' = Some v' → k' ≠ k → invariant I2 (body (k', v'))) →
  ∀ w w', I1 w → for_each (map_to_list m) body w = (Returns tt, w') → I2 w'.
Proof.
  intros Hk Hpre Hown Hpost w w' Hw.
  assert (Hin : (k, v) ∈ map_to_list m) by by apply elem_of_map_to_list.
  apply list_elem_of_split in Hin as (l1 & l2 & Hl).
  assert (Hnd := NoDup_fst_map_to_list m). rewrite Hl in Hnd.
  rewrite fmap_app, fmap_cons in Hnd. cbn in Hnd.
  apply NoDup_app in Hnd as (_ & Hdisj & Hnd2). apply NoDup_cons in Hnd2 as [Hk2 _].
  assert (Hother : ∀ k' v', (k', v') ∈ l1 ∨ (k', v') ∈ l2 → m !! k' = Some v' ∧ k' ≠ k).
  { intros k' v' Hin. split.
    - apply elem_of_map_to_list. rewrite Hl. rewrite elem_of_app, elem_of_cons. tauto.
    - intros ->. destruct Hin as [Hin|Hin].
      + apply (Hdisj k); [|by left]. apply list_elem_of_fmap. by exists (k, v').
      + apply Hk2. apply list_elem_of_fmap. by exists (k, v'). }
  rewrite Hl. intros Hrun.
  apply for_each_app_returns in Hrun as (w1 & Hrun1 & Hrun2).
  cbn in Hrun2. rewrite bind_unfold in Hrun2.
  destruct (body (k, v) w1) as [[[]|e|] w2] eqn:Hbody; try discriminate.
  assert (Hw1 : I1 w1).
  { apply (invariant_returned I1 (for_each l1 body) w w1 tt); [|done..].
    apply invariant_for_each. intros [k' v'] Hin.
    destruct (Hother k' v') as [? ?]; [by left|]. by apply Hpre. }
  assert (Hw2 : I2 w2) by by eapply Hown.
  apply (invariant_returned I2 (for_each l2 body) w2 w' tt); [|done..].
  apply invariant_for_each. intros [k' v'] Hin.
  destruct (Hother k' v') as [? ?]; [by right|]. by apply Hpost.
Qed.

Lemma render_button_invariant (st : gmap string deck_state) (dks : gmap string deck)
    (C : gmap string (cache_entry frame) → Prop) dk deck_id page btn bs :
  (∀ w : world, C (image_cache w) →
     C (image_cache (after (render_button dk deck_id page (btn, bs)) w))) →
  invariant (λ w, state w = st ∧ decks w = dks ∧ C (image_cache w))
    (render_button dk deck_id page (btn, bs)).
Proof.
  intros HC w (Hst & Hdks & Hc). split; [|split]; [..|by apply HC].
  - rewrite <- Hst. apply (render_button_state_inv (λ s, s = state w)). done.
  - rewrite <- Hdks. unfold after. rewrite render_button_run.
    destruct (image_cache w !! _); [done|].
    by destruct (_render_key_image dk bs) as [[??]|].
Qed.

Lemma pending_other dk d' p' b' bs key (w : world) :
  cache_key d' p' b' ≠ key → pending key (image_cache w) →
  pending key (image_cache (after (render_button dk d' p' (b', bs)) w)).
Proof. intros Hne. unfold pending. by rewrite (render_button_other _ _ _ _ _ _ _ Hne). Qed.

Lemma render_returns (w w' : world) :
  render w = (Returns tt, w') →
  lock w = false ∧ lock w' = false ∧
  for_each (map_to_list (state w)) render_deck (with_lock true w) =
    (Returns tt, with_lock true w').
Proof.
  unfold render. rewrite bind_unfold. unfold acquire at 1.
  destruct (lock w) eqn:Hlock; [discriminate|].
  rewrite (bind_returns _ _ (with_lock true w) (with_lock true w) (state w)) by reflexivity.
  rewrite bind_unfold.
  assert (Hlk : invariant (λ w1, lock w1 = true)
                  (for_each (map_to_list (state w)) render_deck)).
  { apply invariant_for_each. intros [d ds] _. unfold render_deck, get_page. inv_auto.
    apply invariant_for_each. intros [b bs] _. unfold render_button, set_cache.
    inv_auto; done. }
  specialize (Hlk (with_lock true w) eq_refl). unfold after in Hlk.
  destruct (for_each (map_to_list (state w)) render_deck (with_lock true w))
    as [[[]|e|] w1]; try discriminate.
  cbn in Hlk. intros [= <-]. cbn. repeat split.
  destruct w1. cbn in *. by subst.
Qed.

(** A render pass that returns leaves every visible button pending. *)
Lemma render_resets deck_id page btn (w w' : world) :
  render w = (Returns tt, w') → visible w deck_id page btn →
  state w' = state w ∧ decks w' = decks w ∧ lock w' = false ∧
  pending (cache_key deck_id page btn) (image_cache w').
Proof.
  intros Hrun (Hdk & Hpage & ds & Hds & bs & Hbs).
  destruct (render_returns w w' Hrun) as (Hlock & Hlock' & Hloop).
  destruct Hdk as [dk Hdk].
  set (key := cache_key deck_id page btn).
  set (I1 := λ w1 : world, state w1 = state w ∧ decks w1 = decks w ∧ True).
  set (I2 := λ w1 : world, state w1 = state w ∧ decks w1 = decks w ∧
                           pending key (image_cache w1)).
  assert (HI2 : I2 (with_lock true w')).
  { refine (for_each_map_visited (state w) deck_id ds render_deck I1 I2 Hds _ _ _
              (with_lock true w) _ _ Hloop); [| | |done].
    - intros d' ds' _ Hne. apply (render_deck_invariant _ _ (λ _, True)). done.
    - intros w1 w2 (Hst1 & Hdks1 & _). unfold render_deck.
      rewrite (bind_returns _ _ w1 w1 (decks w1)) by reflexivity. rewrite Hdks1, Hdk.
      rewrite (bind_returns _ _ _ _ _ (get_page_run deck_id w1)). rewrite Hst1, <- Hpage.
      intros Hrun1.
      refine (for_each_map_visited _ btn bs _ I1 I2 Hbs _ _ _ w1 w2 _ Hrun1); [| | |done].
      + intros b' bs' _ Hne. apply (render_button_invariant _ _ (λ _, True)). done.
      + intros w3 w4 (Hst3 & Hdks3 & _) Hbody.
        assert (Hinv := render_button_invariant (state w) (decks w) (λ _, True)
                          dk deck_id page btn bs (λ _ _, I) w3 (conj Hst3 (conj Hdks3 I))).
        unfold after in Hinv. rewrite Hbody in Hinv. destruct Hinv as (? & ? & _).
        split; [done|]. split; [done|].
        rewrite render_button_run in Hbody. unfold pending. fold key in Hbody |- *.
        destruct (image_cache w3 !! key).
        * injection Hbody as <-. cbn. eexists. by rewrite lookup_insert_eq.
        * destruct (_render_key_image dk bs) as [[image fps]|]; [|discriminate].
          injection Hbody as <-. cbn. eexists. by rewrite lookup_insert_eq.
      + intros b' bs' _ Hne. apply render_button_invariant. intros w3.
        apply pending_other. intros Heq. apply cache_key_inj in Heq. tauto.
    - intros d' ds' _ Hne. apply render_deck_invariant. intros dk' b' bs' w3 _ _.
      apply pending_other. intros Heq. apply cache_key_inj in Heq. tauto. }
  destruct HI2 as (? & ? & ?). done.
Qed.

(** *** Setters and the cache *)

Lemma save_state_cache_inv (C : world → Prop) :
  (∀ w t, C w → C (with_trace t w)) → invariant C _save_state.
Proof. intros HC. unfold _save_state, export_config, emit. inv_auto. by apply HC. Qed.

(** C3, as the code has it: after [set_button_text] or [set_button_icon]
    the old entry of the button is gone - under its key the cache holds
    nothing, or an undrawn entry rendered from the button as it now is on
    its registered deck; [set_button_command], [set_button_keys],
    [set_button_write] and [set_button_switch_page] leave the cache as it
    was; [set_button_change_brightness] (which runs a render pass) removes
    no entry and keeps every entry's frames and frame rate. *)
Theorem C3_cache_invalidation_amended (deck_id : string) (page btn : Z) (w : world) :
  (∀ text, ∃ b,
     lookup_button (state (after (set_button_text deck_id page btn text) w))
       deck_id page btn = Some b ∧
     b_text b = Some text ∧
     fresh_or_absent (decks w) deck_id b (cache_key deck_id page btn)
       (image_cache (after (set_button_text deck_id page btn text) w))) ∧
  (∀ icon, ∃ b,
     lookup_button (state (after (set_button_icon deck_id page btn icon) w))
       deck_id page btn = Some b ∧
     b_icon b = Some icon ∧
     fresh_or_absent (decks w) deck_id b (cache_key deck_id page btn)
       (image_cache (after (set_button_icon deck_id page btn icon) w))) ∧
  (∀ v, image_cache (after (set_button_command deck_id page btn v) w) = image_cache w) ∧
  (∀ v, image_cache (after (set_button_keys deck_id page btn v) w) = image_cache w) ∧
  (∀ v, image_cache (after (set_button_write deck_id page btn v) w) = image_cache w) ∧
  (∀ v, image_cache (after (set_button_switch_page deck_id page btn v) w) = image_cache w) ∧
  (∀ v, keeps_entries (image_cache w)
          (image_cache (after (set_button_change_brightness deck_id page btn v) w))).
Proof.
  assert (Hpop : ∀ assign : button → button,
    let b := assign (default empty_button (lookup_button (state w) deck_id page btn)) in
    let w' := after (button_setitem deck_id page btn assign;;
                     cache_pop (cache_key deck_id page btn);; render;; _save_state) w in
    lookup_button (state w') deck_id page btn = Some b ∧
    fresh_or_absent (decks w) deck_id b (cache_key deck_id page btn) (image_cache w')).
  { intros assign b w'. subst w'. unfold after.
    rewrite (bind_returns _ _ _ _ _ (button_setitem_run deck_id page btn assign w)).
    fold b. rewrite bind_unfold. unfold cache_pop at 1, modify at 1.
    set (st1 := put_button deck_id page btn b _).
    assert (Hb : lookup_button st1 deck_id page btn = Some b) by apply lookup_button_put_eq.
    set (w2 := with_image_cache _ _).
    assert (Hinv : invariant
      (λ w, state w = st1 ∧ decks w = decks w2 ∧
            fresh_or_absent (decks w2) deck_id b (cache_key deck_id page btn) (image_cache w))
      (render;; _save_state)).
    { apply invariant_bind; [by apply render_fresh_or_absent|].
      intros _. apply save_state_cache_inv. by intros w3 t. }
    destruct (Hinv w2) as (Hst & _ & Hfresh).
    { repeat split. left. subst w2. cbn. apply lookup_delete_eq. }
    unfold after in Hst, Hfresh. by rewrite Hst. }
  split; [|split].
  - intros text. eexists. destruct (Hpop (assign_text text)) as [Hl Hf].
    split; [exact Hl|]. split; [done|exact Hf].
  - intros icon. eexists. destruct (Hpop (assign_icon icon)) as [Hl Hf].
    split; [exact Hl|]. split; [done|exact Hf].
  - repeat split; try (intros v; reflexivity).
    intros v. unfold after, set_button_change_brightness.
    rewrite (bind_returns _ _ _ _ _ (button_setitem_run deck_id page btn _ w)).
    set (w1 := with_state _ w).
    assert (Hinv : invariant (λ w', keeps_entries (image_cache w) (image_cache w'))
                     (render;; _save_state)).
    { apply invariant_bind; [apply render_keeps_entries|].
      intros _. apply save_state_cache_inv. by intros w3 t. }
    apply (Hinv w1). intros key e He. by exists e.
Qed.

(** *** The scheduler on one entry *)

Lemma positive_not_zero (x : float) : Flt.positive x = true → Flt.is_zero x = false.
Proof.
  unfold Flt.positive, Flt.is_zero, Flt.zero.
  rewrite FloatAxioms.ltb_spec, FloatAxioms.eqb_spec.
  change (Prim2SF 0) with (S754_zero false).
  destruct (Prim2SF x) as [[]|[]| |[] m e]; cbn; congruence.
Qed.

Lemma visible_ext (w w' : world) deck_id page btn :
  state w' = state w → decks w' = decks w →
  visible w deck_id page btn → visible w' deck_id page btn.
Proof. unfold visible. by intros -> ->. Qed.

(** A tick on an animated entry: drawn and advanced when due, left alone
    otherwise. *)
Lemma animated_tick now deck_id page btn e (w : world) :
  lock w = false → cache_ok w → visible w deck_id page btn →
  image_cache w !! cache_key deck_id page btn = Some e →
  Flt.positive (ce_fps e) = true →
  let w' := after (render_tick now) w in
  result (render_tick now) w = Returns tt ∧
  (Flt.int_ge now (ce_next_time e) = true →
     ∃ img, py_index (ce_image e) (ce_frame e) = Some img ∧
       pushes_of deck_id btn (trace w') = pushes_of deck_id btn (trace w) ++ [img] ∧
       image_cache w' !! cache_key deck_id page btn =
         Some (CacheEntry (ce_image e) (ce_fps e)
                 (Flt.int_add now (Flt.thousand_over (ce_fps e)))
                 ((ce_frame e + 1) mod Z.of_nat (length (ce_image e))))) ∧
  (Flt.int_ge now (ce_next_time e) = false →
     pushes_of deck_id btn (trace w') = pushes_of deck_id btn (trace w) ∧
     image_cache w' !! cache_key deck_id page btn = Some e).
Proof.
  intros Hlock Hok Hvis Hc Hpos w'.
  destruct (render_tick_visible now deck_id page btn e w Hlock Hok Hvis Hc)
    as (img & Himg & Hres & _ & _ & _ & _ & Hc' & Hp').
  fold w' in Hc', Hp'. apply positive_not_zero in Hpos.
  unfold due, advanced in Hc', Hp'. rewrite Hpos in Hc', Hp'. cbn in Hc', Hp'.
  rewrite orb_false_r in Hc', Hp'.
  split; [done|]. split; intros Hdue; rewrite Hdue in Hc', Hp'.
  - by exists img.
  - by rewrite app_nil_r in Hp'.
Qed.

(** Once a still entry is drawn no tick touches it. *)
Lemma drawn_static_stays deck_id page btn e (clock : list Z) (w : world) :
  lock w = false → cache_ok w → visible w deck_id page btn →
  image_cache w !! cache_key deck_id page btn = Some e →
  Flt.is_zero (ce_fps e) = true → Flt.is_zero (ce_next_time e) = false →
  result (render_thread clock) w = Returns tt ∧
  pushes_of deck_id btn (trace (after (render_thread clock) w)) =
    pushes_of deck_id btn (trace w).
Proof.
  intros Hlock Hok Hvis Hc Hfps Hnext. revert w Hlock Hok Hvis Hc.
  induction clock as [|now clock IH]; intros w Hlock Hok Hvis Hc; [done|].
  destruct (render_tick_visible now deck_id page btn e w Hlock Hok Hvis Hc)
    as (img & _ & Hres & Hok' & Hst' & Hdk' & Hlock' & Hc' & Hp').
  assert (Hdue : due now e = false) by (unfold due; by rewrite Hfps, Hnext).
  rewrite Hdue in Hc', Hp'. rewrite app_nil_r in Hp'.
  unfold result, after, render_thread in *. cbn. rewrite bind_unfold.
  destruct (render_tick now w) as [o w1]. cbn in *. subst o.
  destruct (IH w1) as [Hr Hp]; try done.
  - by apply (visible_ext w).
  - by rewrite Hp.
Qed.

(** C2: after a render pass that returned, every visible button has an
    entry waiting for its first draw (due time 0, frame 0); when the entry
    is a still one (fps 0) the first tick pushes its frame 0 and sets the
    due time to -1, and over any further ticks that is the only push to
    the button. *)
Theorem C2_static_entry_drawn_once (deck_id : string) (page btn : Z) (w0 w : world) :
  renders_frames → cache_ok w0 →
  render w0 = (Returns tt, w) → visible w0 deck_id page btn →
  ∃ e img,
    image_cache w !! cache_key deck_id page btn = Some e ∧
    ce_next_time e = Flt.zero ∧ ce_frame e = 0 ∧
    py_index (ce_image e) 0 = Some img ∧
    (Flt.is_zero (ce_fps e) = true →
     ∀ now clock,
       result (render_thread (now :: clock)) w = Returns tt ∧
       pushes_of deck_id btn (trace (after (render_tick now) w)) =
         pushes_of deck_id btn (trace w) ++ [img] ∧
       (∃ e1, image_cache (after (render_tick now) w) !! cache_key deck_id page btn = Some e1 ∧
              ce_next_time e1 = Flt.minus_one) ∧
       pushes_of deck_id btn (trace (after (render_thread (now :: clock)) w)) =
         pushes_of deck_id btn (trace w) ++ [img]).
Proof.
  intros Hframes Hok0 Hrender Hvis0.
  destruct (render_resets deck_id page btn w0 w Hrender Hvis0)
    as (Hst & Hdks & Hlock & e & Hc & Hnext & Hframe).
  assert (Hok : cache_ok w).
  { assert (Hinv := render_keeps_drawable Hframes w0 Hok0).
    unfold after in Hinv. by rewrite Hrender in Hinv. }
  assert (Hvis : visible w deck_id page btn) by by apply (visible_ext w0).
  destruct (entry_ok_current e (Hok _ _ Hc)) as (img & Himg & _). rewrite Hframe in Himg.
  exists e, img. do 4 (split; [done|]).
  intros Hfps now clock.
  destruct (render_tick_visible now deck_id page btn e w Hlock Hok Hvis Hc)
    as (img' & Himg' & Hres & Hok' & Hst' & Hdk' & Hlock' & Hc' & Hp').
  rewrite Hframe in Himg'. assert (img' = img) as -> by congruence.
  assert (Hdue : due now e = true).
  { unfold due. rewrite Hfps, Hnext. cbn. reflexivity. }
  rewrite Hdue in Hc', Hp'.
  assert (Hn1 : Flt.is_zero (ce_next_time (advanced now e)) = false).
  { unfold advanced. cbn. rewrite Hfps. reflexivity. }
  destruct (drawn_static_stays deck_id page btn (advanced now e) clock
              (after (render_tick now) w)) as [Hr Hp]; try done.
  { by apply (visible_ext w). }
  unfold result, after, render_thread in *. cbn. rewrite bind_unfold.
  destruct (render_tick now w) as [o w1]. cbn in *. subst o.
  split; [done|]. split; [done|]. split.
  - eexists. split; [exact Hc'|]. unfold advanced. cbn. by rewrite Hfps.
  - by rewrite Hp.
Qed.

(** ** Further properties of the module *)

(** *** Cache keys *)

(** X1: two buttons share a cache key only when deck, page and button number
    all agree: the key [f"{deck_id}.{page}.{button_id}"] names one button,
    also when the serial itself contains dots. *)
Theorem X1_cache_key_names_one_button d1 p1 k1 d2 p2 k2 :
  cache_key d1 p1 k1 = cache_key d2 p2 k2 ↔ d1 = d2 ∧ p1 = p2 ∧ k1 = k2.
Proof.
  split.
  - apply cache_key_inj.
  - by intros (-> & -> & ->).
Qed.

(** *** What a render pass does and does not touch *)

Lemma render_blocked (w : world) : lock w = true → render w = (Blocks, w).
Proof. intros Hl. unfold render. rewrite bind_unfold. unfold acquire. by rewrite Hl. Qed.

Lemma render_decks (w : world) : decks (after render w) = decks w.
Proof.
  by destruct (render_invariant (state w) (decks w) (λ _, True) (λ _ _ _ _ _ _ _ _ _ _, I) w)
    as (_ & ? & _).
Qed.

(** X2: however it ends, [render()] writes nothing to a device, to the
    state file, to the tree or to the registry, and it never drops a cache
    entry or changes an entry's frames or frame rate; when the lock is held
    it waits without touching anything. *)
Theorem X2_render_only_resets_bookkeeping (w : world) :
  trace (after render w) = trace w ∧
  state (after render w) = state w ∧
  decks (after render w) = decks w ∧
  keeps_entries (image_cache w) (image_cache (after render w)) ∧
  (lock w = true → render w = (Blocks, w)).
Proof.
  split; [apply render_trace|]. split; [apply render_state|].
  split; [apply render_decks|]. split; [|apply render_blocked].
  apply (render_keeps_entries (image_cache w) w). intros key e He. by exists e.
Qed.

Lemma render_loop_locked (st : gmap string deck_state) :
  invariant (λ w, lock w = true) (for_each (map_to_list st) render_deck).
Proof.
  apply invariant_for_each. intros [d ds] _. unfold render_deck, get_page. inv_auto.
  apply invariant_for_each. intros [b bs] _. unfold render_button, set_cache.
  inv_auto; done.
Qed.

(** X3: [render()] has no try/finally around its loop: when
    [_render_key_image] raises, the exception leaves the lock held, and from
    then on every [render()] and every scheduler tick waits for ever. *)
Theorem X3_failed_render_keeps_the_lock (w : world) (e : exn) :
  result render w = Raises e →
  lock (after render w) = true ∧
  render (after render w) = (Blocks, after render w) ∧
  ∀ now, render_tick now (after render w) = (Blocks, after render w).
Proof.
  unfold result, after. intros Hres.
  assert (Hlock : lock (render w).2 = true).
  { revert Hres. unfold render. rewrite bind_unfold. unfold acquire.
    destruct (lock w) eqn:Hl; [discriminate|].
    rewrite (bind_returns _ _ (with_lock true w) (with_lock true w) (state w)) by reflexivity.
    rewrite bind_unfold.
    assert (Hinv := render_loop_locked (state w) (with_lock true w) eq_refl).
    unfold after in Hinv.
    destruct (for_each (map_to_list (state w)) render_deck (with_lock true w))
      as [[[]|e'|] w1]; cbn in *; [discriminate|done|done]. }
  split; [done|]. split; [by apply render_blocked|].
  intros now. unfold render_tick. rewrite bind_unfold. unfold acquire. by rewrite Hlock.
Qed.

(** *** What the scheduler does and does not touch *)

Lemma tick_button_ready st dks lk now deck_id page item (w : world) :
  cache_ok w ∧ state w = st ∧ decks w = dks ∧ lock w = lk →
  result (tick_button now deck_id page item) w = Returns tt ∧
  (cache_ok (after (tick_button now deck_id page item) w) ∧
   state (after (tick_button now deck_id page item) w) = st ∧
   decks (after (tick_button now deck_id page item) w) = dks ∧
   lock (after (tick_button now deck_id page item) w) = lk).
Proof.
  destruct item as [btn bs]. intros (Hok & Hst & Hdk & Hlk). unfold result, after.
  destruct (image_cache w !! cache_key deck_id page btn) as [e|] eqn:He.
  - destruct (tick_button_run now deck_id page btn bs w e He (Hok _ _ He)) as (img & _ & ->).
    cbn. split; [done|]. destruct (due now e); [|done].
    split; [|done]. apply (cache_ok_insert w); [done|]. apply entry_ok_advanced, (Hok _ _ He).
  - by rewrite (tick_button_skip now deck_id page btn bs w He).
Qed.

Lemma render_tick_ready st dks now (w : world) :
  scheduler_ready st dks w →
  result (render_tick now) w = Returns tt ∧ scheduler_ready st dks (after (render_tick now) w).
Proof.
  intros (Hok & Hst & Hdk & Hlk). unfold result, after, render_tick.
  assert (Hacq : acquire w = (Returns tt, with_lock true w))
    by (unfold acquire; by rewrite Hlk).
  rewrite (bind_returns _ _ _ _ _ Hacq).
  rewrite (bind_returns _ _ (with_lock true w) (with_lock true w) (state w)) by reflexivity.
  destruct (for_each_map_keep (state w) (tick_deck now)
              (λ w1, cache_ok w1 ∧ state w1 = st ∧ decks w1 = dks ∧ lock w1 = true))
    with (w := with_lock true w) as [Hr Hi]; [|done|].
  - intros d ds w1 _ Hw1. unfold result, after, tick_deck.
    rewrite (bind_returns _ _ w1 w1 (decks w1)) by reflexivity.
    destruct (decks w1 !! d); [|done].
    rewrite (bind_returns _ _ _ _ _ (get_page_run d w1)).
    refine (for_each_returns
      (λ w2, cache_ok w2 ∧ state w2 = st ∧ decks w2 = dks ∧ lock w2 = true) _ _ _ w1 Hw1).
    intros item w2 _ Hw2. by apply tick_button_ready.
  - unfold result, after in Hr, Hi. rewrite bind_unfold.
    destruct (for_each (map_to_list (state w)) (tick_deck now) (with_lock true w)) as [o w1].
    cbn in Hr, Hi. subst o. cbn. split; [done|]. destruct Hi as (? & ? & ? & ?). done.
Qed.

Lemma tick_only_pushes (t0 : list (event frame)) now :
  invariant (λ w, ∃ evs, trace w = t0 ++ evs ∧ forallb is_push evs = true) (render_tick now).
Proof.
  assert (Hext : ∀ (w : world) d k img,
    (∃ evs, trace w = t0 ++ evs ∧ forallb is_push evs = true) →
    ∃ evs, (trace w ++ [EvSetKeyImage d k img]) = t0 ++ evs ∧ forallb is_push evs = true).
  { intros w d k img (evs & -> & Hall). exists (evs ++ [EvSetKeyImage d k img]).
    split; [by rewrite app_assoc|]. rewrite forallb_app, Hall. reflexivity. }
  unfold render_tick, release. inv_auto; try done.
  apply invariant_for_each. intros [d ds] _. unfold tick_deck, get_page. inv_auto.
  apply invariant_for_each. intros [b bs] _. unfold tick_button, set_cache, emit.
  inv_auto; try done; by apply Hext.
Qed.

(** X4: on a cache whose entries all have a frame at their index, with the
    lock free, the scheduler runs any number of ticks without raising; it
    leaves the tree and the registry alone, the lock free and the cache
    drawable, and all it emits are key-image writes (nothing is saved,
    launched or typed by a tick). *)
Theorem X4_scheduler_runs_safely (clock : list Z) (w : world) :
  cache_ok w → lock w = false →
  result (render_thread clock) w = Returns tt ∧
  scheduler_ready (state w) (decks w) (after (render_thread clock) w) ∧
  ∃ evs, trace (after (render_thread clock) w) = trace w ++ evs ∧
         forallb is_push evs = true.
Proof.
  intros Hok Hlk.
  destruct (for_each_returns (scheduler_ready (state w) (decks w)) clock render_tick)
    with (w := w) as [Hr Hi]; [|done|].
  { intros now w1 _ Hw1. by apply render_tick_ready. }
  split; [exact Hr|]. split; [exact Hi|].
  apply (invariant_for_each (λ w1, ∃ evs, trace w1 = trace w ++ evs ∧ forallb is_push evs = true)).
  - intros now _. apply tick_only_pushes.
  - exists []. by rewrite app_nil_r.
Qed.

(** *** Entries of buttons that are not shown *)

Lemma tick_button_other_key now deck_id page item key (c : option (cache_entry frame)) :
  cache_key deck_id page item.1 ≠ key →
  invariant (λ w, image_cache w !! key = c) (tick_button now deck_id page item).
Proof.
  destruct item as [btn bs]. cbn. intros Hne. unfold tick_button, set_cache, emit.
  inv_auto; try done; cbn; by rewrite lookup_insert_ne.
Qed.

Lemma scheduler_loop_invariant (st : gmap string deck_state) (dks : gmap string deck)
    (C : gmap string (cache_entry frame) → Prop) now :
  (∀ deck_id ds btn bs (w : world),
     st !! deck_id = Some ds → is_Some (dks !! deck_id) →
     page_buttons ds (page_of st deck_id) !! btn = Some bs →
     C (image_cache w) →
     C (image_cache (after (tick_button now deck_id (page_of st deck_id) (btn, bs)) w))) →
  invariant (λ w, state w = st ∧ decks w = dks ∧ C (image_cache w)) (render_tick now).
Proof.
  intros Hbutton.
  assert (Hframe : ∀ deck_id page item,
    invariant (λ w, state w = st ∧ decks w = dks) (tick_button now deck_id page item)).
  { intros deck_id page [btn bs]. unfold tick_button, set_cache, emit. inv_auto; done. }
  assert (Hb : ∀ deck_id ds btn bs,
    st !! deck_id = Some ds → is_Some (dks !! deck_id) →
    page_buttons ds (page_of st deck_id) !! btn = Some bs →
    invariant (λ w, state w = st ∧ decks w = dks ∧ C (image_cache w))
      (tick_button now deck_id (page_of st deck_id) (btn, bs))).
  { intros deck_id ds btn bs Hds Hdk Hbs w (Hst & Hdks & HC).
    destruct (Hframe deck_id (page_of st deck_id) (btn, bs) w) as [? ?]; [done|].
    split; [done|]. split; [done|]. by eapply Hbutton. }
  unfold render_tick. apply invariant_bind.
  { apply invariant_acquire. by intros w. }
  intros _. apply invariant_gets_bind. intros w (Hst & Hdks & HC). revert w Hst Hdks HC.
  cut (invariant (λ w, state w = st ∧ decks w = dks ∧ C (image_cache w))
         (for_each (map_to_list st) (tick_deck now);; release)).
  { intros Hinv w Hst Hdks HC. rewrite Hst. by apply Hinv. }
  apply invariant_bind; [|intros _; by apply invariant_modify].
  apply invariant_map_each. intros deck_id ds Hds. unfold tick_deck.
  apply invariant_gets_bind. intros w (Hst & Hdks & HC). revert w Hst Hdks HC.
  cut (invariant (λ w, state w = st ∧ decks w = dks ∧ C (image_cache w))
         (match dks !! deck_id with
          | Some _ =>
              page ← get_page deck_id;
              for_each (map_to_list (page_buttons ds page)) (tick_button now deck_id page)
          | None => mret tt
          end)).
  { intros Hinv w Hst Hdks HC. rewrite Hdks. by apply Hinv. }
  destruct (dks !! deck_id) as [dk|] eqn:Hdk; [|apply invariant_ret].
  unfold get_page. apply invariant_gets_bind. intros w (Hst & Hdks & HC).
  rewrite Hst. fold (page_of st deck_id). revert w Hst Hdks HC.
  cut (invariant (λ w, state w = st ∧ decks w = dks ∧ C (image_cache w))
         (for_each (map_to_list (page_buttons ds (page_of st deck_id)))
            (tick_button now deck_id (page_of st deck_id)))).
  { intros Hinv w Hst Hdks HC. by apply Hinv. }
  apply invariant_map_each. intros btn bs Hbs. by eapply Hb.
Qed.

(** X5: the cache entry of a button that is not shown (its deck is not
    registered, its page is not the deck's current page, or the button is
    not configured on it) is left exactly as it is by a render pass and by
    a scheduler tick, however these end: it is neither reset nor advanced
    nor evicted. *)
Theorem X5_hidden_entries_stay_stale (deck_id : string) (page btn : Z) (now : Z) (w : world) :
  ¬ visible w deck_id page btn →
  image_cache (after render w) !! cache_key deck_id page btn =
    image_cache w !! cache_key deck_id page btn ∧
  image_cache (after (render_tick now) w) !! cache_key deck_id page btn =
    image_cache w !! cache_key deck_id page btn.
Proof.
  intros Hhidden.
  assert (Hne : ∀ d ds b bs,
    state w !! d = Some ds → is_Some (decks w !! d) →
    page_buttons ds (page_of (state w) d) !! b = Some bs →
    cache_key d (page_of (state w) d) b ≠ cache_key deck_id page btn).
  { intros d ds b bs Hds Hdk Hbs Heq. apply cache_key_inj in Heq as (-> & Hp & ->).
    apply Hhidden. split; [done|]. split; [done|]. exists ds. rewrite <- Hp. eauto. }
  split.
  - refine (render_cache_invariant
      (λ c, c !! cache_key deck_id page btn = image_cache w !! cache_key deck_id page btn)
      w _ eq_refl).
    intros d ds dk b bs w1 Hds Hdk Hbs HC.
    rewrite render_button_other; [done|]. by eapply Hne.
  - destruct (scheduler_loop_invariant (state w) (decks w)
      (λ c, c !! cache_key deck_id page btn = image_cache w !! cache_key deck_id page btn)
      now) with (w := w) as (_ & _ & HC); [|done|done].
    intros d ds b bs w1 Hds Hdk Hbs HC.
    apply (tick_button_other_key now d (page_of (state w) d) (b, bs)); [|done].
    by eapply Hne.
Qed.

Lemma render_resets_frame (w w' : world) :
  render w = (Returns tt, w') → state w' = state w ∧ decks w' = decks w.
Proof.
  intros Hrun. assert (Hs := render_state w). assert (Hd := render_decks w).
  unfold after in Hs, Hd. by rewrite Hrun in Hs, Hd.
Qed.
(** *** Setters: what they store and what they save *)

Lemma put_button_put deck_id page btn b b' st :
  put_button deck_id page btn b' (put_button deck_id page btn b st) =
  put_button deck_id page btn b' st.
Proof.
  unfold put_button. rewrite lookup_insert_eq. cbn. rewrite lookup_insert_eq. cbn.
  by rewrite !insert_insert_eq.
Qed.

Lemma render_then_save (w : world) :
  state (after (render;; _save_state) w) = state w ∧
  (result (render;; _save_state) w = Returns tt ∧
     trace (after (render;; _save_state) w) = trace w ++ [EvExport STATE_FILE (state w)] ∨
   result (render;; _save_state) w ≠ Returns tt ∧
     trace (after (render;; _save_state) w) = trace w).
Proof.
  unfold result, after. rewrite bind_unfold.
  assert (Hs := render_state w). assert (Ht := render_trace w). unfold after in Hs, Ht.
  destruct (render w) as [[[]|e|] w2]; cbn in *.
  - unfold _save_state, export_config. mrun. rewrite Hs, Ht. split; [done|]. by left.
  - rewrite Hs, Ht. split; [done|]. by right.
  - rewrite Hs, Ht. split; [done|]. by right.
Qed.

(** X6: the four setters that do not render ([command], [keys], [write],
    [switch_page]) always return and append exactly one export of the tree
    they leave to the state file.  The three that render ([text], [icon],
    [brightness_change]) do the same when their render pass returns; when
    it raises or waits, nothing is exported although the field is already
    written in memory. *)
Theorem X6_setters_save_the_tree (deck_id : string) (page btn : Z) (w : world) :
  (∀ v, let m := set_button_command deck_id page btn v in
     result m w = Returns tt ∧
     trace (after m w) = trace w ++ [EvExport STATE_FILE (state (after m w))]) ∧
  (∀ v, let m := set_button_keys deck_id page btn v in
     result m w = Returns tt ∧
     trace (after m w) = trace w ++ [EvExport STATE_FILE (state (after m w))]) ∧
  (∀ v, let m := set_button_write deck_id page btn v in
     result m w = Returns tt ∧
     trace (after m w) = trace w ++ [EvExport STATE_FILE (state (after m w))]) ∧
  (∀ v, let m := set_button_switch_page deck_id page btn v in
     result m w = Returns tt ∧
     trace (after m w) = trace w ++ [EvExport STATE_FILE (state (after m w))]) ∧
  (∀ v, let m := set_button_text deck_id page btn v in
     result m w = Returns tt ∧
       trace (after m w) = trace w ++ [EvExport STATE_FILE (state (after m w))] ∨
     result m w ≠ Returns tt ∧ trace (after m w) = trace w) ∧
  (∀ v, let m := set_button_icon deck_id page btn v in
     result m w = Returns tt ∧
       trace (after m w) = trace w ++ [EvExport STATE_FILE (state (after m w))] ∨
     result m w ≠ Returns tt ∧ trace (after m w) = trace w) ∧
  (∀ v, let m := set_button_change_brightness deck_id page btn v in
     result m w = Returns tt ∧
       trace (after m w) = trace w ++ [EvExport STATE_FILE (state (after m w))] ∨
     result m w ≠ Returns tt ∧ trace (after m w) = trace w).
Proof.
  assert (Hrender : ∀ (assign : button → button) (pop : bool),
    let m := button_setitem deck_id page btn assign;;
             (if pop then cache_pop (cache_key deck_id page btn) else mret tt);;
             render;; _save_state in
    result m w = Returns tt ∧
      trace (after m w) = trace w ++ [EvExport STATE_FILE (state (after m w))] ∨
    result m w ≠ Returns tt ∧ trace (after m w) = trace w).
  { intros assign pop m. subst m. unfold result, after.
    rewrite (bind_returns _ _ _ _ _ (button_setitem_run deck_id page btn assign w)).
    set (w1 := with_state _ w).
    assert (Hpop : ∃ w2, (if pop then cache_pop (cache_key deck_id page btn) else mret tt) w1
                         = (Returns tt, w2) ∧ state w2 = state w1 ∧ trace w2 = trace w).
    { destruct pop; eexists; (split; [reflexivity|done]). }
    destruct Hpop as (w2 & Hpop & Hst2 & Htr2).
    rewrite (bind_returns _ _ _ _ _ Hpop).
    destruct (render_then_save w2) as [Hst [[Hr Ht]|[Hr Ht]]]; unfold result, after in *.
    - left. split; [done|]. by rewrite Ht, Hst, Htr2.
    - right. split; [done|]. by rewrite Ht, Htr2. }
  repeat split; try reflexivity.
  - intros v. apply (Hrender (assign_text v) true).
  - intros v. apply (Hrender (assign_icon v) true).
  - intros v. apply (Hrender (assign_brightness_change v) false).
Qed.

(** X7: a button setter replaces one field of one button and nothing else
    in the tree, however it ends: the tree it leaves is the old one with
    that button (created empty when absent) holding the new field; every
    other button, and the brightness and page of every deck, read as
    before. *)
Theorem X7_setters_change_one_button (deck_id : string) (page btn : Z) (w : world) :
  let b := default empty_button (lookup_button (state w) deck_id page btn) in
  let stored (m : M unit) (b' : button) :=
    state (after m w) = put_button deck_id page btn b' (state w) in
  ((∀ v, stored (set_button_text deck_id page btn v) (assign_text v b)) ∧
   (∀ v, stored (set_button_icon deck_id page btn v) (assign_icon v b)) ∧
   (∀ v, stored (set_button_command deck_id page btn v) (assign_command v b)) ∧
   (∀ v, stored (set_button_keys deck_id page btn v) (assign_keys v b)) ∧
   (∀ v, stored (set_button_write deck_id page btn v) (assign_write v b)) ∧
   (∀ v, stored (set_button_switch_page deck_id page btn v) (assign_switch_page v b)) ∧
   (∀ v, stored (set_button_change_brightness deck_id page btn v)
           (assign_brightness_change v b))) ∧
  (∀ b' d p k,
     (d, p, k) ≠ (deck_id, page, btn) →
     lookup_button (put_button deck_id page btn b' (state w)) d p k =
       lookup_button (state w) d p k) ∧
  (∀ b' d,
     brightness_of (put_button deck_id page btn b' (state w)) d = brightness_of (state w) d ∧
     page_of (put_button deck_id page btn b' (state w)) d = page_of (state w) d).
Proof.
  intros b stored.
  assert (Hany : ∀ (assign : button → button) (rest : M unit),
    (∀ Q, invariant (λ w, Q (state w)) rest) →
    stored (button_setitem deck_id page btn assign;; rest) (assign b)).
  { intros assign rest Hrest. unfold stored, after.
    rewrite (bind_returns _ _ _ _ _ (button_setitem_run deck_id page btn assign w)).
    fold b. rewrite <- (put_button_put deck_id page btn b (assign b) (state w)).
    by apply (Hrest (λ st, st = _)). }
  assert (Hsave : ∀ Q, invariant (λ w, Q (state w)) _save_state)
    by (intros Q; apply save_state_state_inv).
  assert (Hrender : ∀ Q, invariant (λ w, Q (state w)) (render;; _save_state)).
  { intros Q. apply invariant_bind; [apply render_state_inv | intros _; apply Hsave]. }
  assert (Hpop : ∀ key Q, invariant (λ w, Q (state w)) (cache_pop key;; render;; _save_state)).
  { intros key Q. apply invariant_bind; [apply cache_pop_state_inv | intros _; apply Hrender]. }
  split; [|split].
  - repeat split; intros v; apply Hany; auto.
  - intros b' d p k Hne. by apply lookup_button_put_ne.
  - intros b' d. split; [apply put_button_brightness | apply put_button_page].
Qed.

(** *** Page and brightness *)

(** X8: [get_page] after [set_page] reads the page that was set, however
    the render pass of [set_page] ended, and the brightness of every deck
    is as before; when [set_page] returns, the tree with the new page was
    exported and every button shown under the new page has a cache entry
    waiting for its first draw (due time 0, frame 0), so a page switch
    restarts all shown animations together. *)
Theorem X8_set_page_shows_the_page (deck_id : string) (page : Z) (w : world) :
  let w' := after (set_page deck_id page) w in
  get_page deck_id w' = (Returns page, w') ∧
  (∀ d, brightness_of (state w') d = brightness_of (state w) d) ∧
  (result (set_page deck_id page) w = Returns tt →
     trace w' = trace w ++ [EvExport STATE_FILE (state w')] ∧
     ∀ d p k, visible w' d p k → pending (cache_key d p k) (image_cache w')).
Proof.
  intros w'. destruct (set_page_run deck_id page w) as [Hst Htr]. fold w' in Hst, Htr.
  split; [|split].
  - rewrite get_page_run, Hst. unfold page_of. by rewrite lookup_insert_eq.
  - intros d. rewrite Hst. unfold brightness_of.
    destruct (decide (d = deck_id)) as [->|Hd].
    + by rewrite lookup_insert_eq.
    + by rewrite lookup_insert_ne.
  - intros Hres. destruct Htr as [[_ Hne]|[Htr _]]; [done|].
    split; [by rewrite Htr, Hst|].
    intros d p k Hvis. subst w'. revert Hres Hvis Hst. unfold result, after.
    set (st1 := <[deck_id := _]> (state w)).
    assert (Heq : set_page deck_id page w = (render;; _save_state) (with_state st1 w))
      by reflexivity.
    rewrite Heq, bind_unfold.
    destruct (render (with_state st1 w)) as [[[]|e|] w2] eqn:Hrun; try discriminate.
    intros _ Hvis Hst. cbn in Hvis, Hst |- *.
    destruct (render_resets d p k (with_state st1 w) w2 Hrun) as (_ & _ & _ & Hpend); [|done].
    destruct (render_resets_frame (with_state st1 w) w2 Hrun) as [Hs2 Hd2].
    apply (visible_ext (_save_state w2).2); [by rewrite Hst|by rewrite <- Hd2|done].
Qed.

(** X9: on a deck that is not in the registry [set_brightness] and
    [change_brightness] raise KeyError before anything happens: nothing is
    stored, sent to a device or saved.  On a registered deck
    [set_brightness] returns, sends the value to the device, stores it (so
    that [get_brightness] reads it back, whatever the value) and exports
    the tree. *)
Theorem X9_set_brightness_needs_the_deck (deck_id : string) (b : Z) (w : world) :
  (decks w !! deck_id = None →
     set_brightness deck_id b w = (Raises KeyError, w) ∧
     ∀ amount, change_brightness deck_id amount w = (Raises KeyError, w)) ∧
  (is_Some (decks w !! deck_id) →
     let w' := after (set_brightness deck_id b) w in
     result (set_brightness deck_id b) w = Returns tt ∧
     get_brightness deck_id w' = (Returns b, w') ∧
     trace w' = trace w ++ [EvSetBrightness deck_id b; EvExport STATE_FILE (state w')] ∧
     ∀ d, page_of (state w') d = page_of (state w) d).
Proof.
  split.
  - intros Hnone.
    assert (Hset : ∀ v, set_brightness deck_id v w = (Raises KeyError, w)).
    { intros v. unfold set_brightness.
      rewrite (bind_returns _ _ w w (decks w)) by reflexivity. by rewrite Hnone. }
    split; [apply Hset|]. intros amount. rewrite change_brightness_run. apply Hset.
  - intros Hdk w'. subst w'. unfold result, after.
    rewrite (set_brightness_world deck_id b w Hdk). cbn.
    split; [done|]. split; [|split; [done|]].
    + rewrite get_brightness_run. cbn. unfold brightness_of. by rewrite lookup_insert_eq.
    + intros d. unfold page_of. destruct (decide (d = deck_id)) as [->|Hd].
      * by rewrite lookup_insert_eq.
      * by rewrite lookup_insert_ne.
Qed.

(** *** Loading a state file *)

Lemma int_keys_lookup {V} (items : list (string * V)) (acc m : gmap Z V) (n : Z) :
  int_keys items acc = Some m →
  m !! n = match last_for n items with Some v => Some v | None => acc !! n end.
Proof.
  revert acc. induction items as [|[k v] items IH]; intros acc; cbn.
  - by intros [= ->].
  - destruct (py_int k) as [n'|] eqn:Hk; cbn; [|done].
    intros Hm. rewrite (IH _ Hm). destruct (last_for n items); [done|].
    destruct (decide (Some n' = Some n)) as [[= ->]|Hne].
    + by rewrite lookup_insert_eq.
    + rewrite lookup_insert_ne; [done|]. congruence.
Qed.

Lemma int_keys_is_Some {V} (items : list (string * V)) (acc : gmap Z V) :
  is_Some (int_keys items acc) ↔ ∀ k v, (k, v) ∈ items → is_Some (py_int k).
Proof.
  revert acc. induction items as [|[k v] items IH]; intros acc; cbn.
  - split; [|by eauto]. intros _ k v Hin. by apply elem_of_nil in Hin.
  - destruct (py_int k) as [n|] eqn:Hk; cbn.
    + rewrite IH. split.
      * intros Hall k' v' [[= -> ->]|Hin]%elem_of_cons; [by rewrite Hk|by eapply Hall].
      * intros Hall k' v' Hin. apply (Hall k' v'). by right.
    + split; [by intros [? ?]|]. intros Hall.
      destruct (Hall k v) as [n Hn]; [by left|]. congruence.
Qed.

Lemma int_pages_is_Some items (acc : gmap Z (gmap Z button)) :
  is_Some (int_pages items acc) ↔
  ∀ page_id buttons, (page_id, buttons) ∈ items →
    is_Some (py_int page_id) ∧ ∀ k b, (k, b) ∈ buttons → is_Some (py_int k).
Proof.
  revert acc. induction items as [|[page_id buttons] items IH]; intros acc; cbn.
  - split; [|by eauto]. intros _ p bs Hin. by apply elem_of_nil in Hin.
  - destruct (py_int page_id) as [n|] eqn:Hp; cbn.
    + destruct (int_keys buttons ∅) as [bs|] eqn:Hb; cbn.
      * rewrite IH. split.
        -- intros Hall p' bs' [[= -> ->]|Hin]%elem_of_cons; [|by apply Hall].
           split; [by rewrite Hp|]. apply (int_keys_is_Some buttons ∅). by rewrite Hb.
        -- intros Hall p' bs' Hin. apply Hall. by right.
      * split; [by intros [? ?]|]. intros Hall.
        destruct (Hall page_id buttons) as [_ Hk]; [by left|].
        apply (int_keys_is_Some buttons ∅) in Hk. rewrite Hb in Hk. by destruct Hk.
    + split; [by intros [? ?]|]. intros Hall.
      destruct (Hall page_id buttons) as [[n Hn] _]; [by left|]. congruence.
Qed.

(** X10: the dict comprehensions of [_open_config] succeed exactly when
    every page key and every button key of the deck reads as an int (else
    [int] raises ValueError); in the normalised buttons of a page a number
    holds the settings of the last key that reads as that number, so of
    ["1"] and ["01"] the one later in the file wins. *)
Theorem X10_keys_are_normalised_to_ints (jd : json_deck)
    (buttons : list (string * button)) (m : gmap Z button) :
  (is_Some (int_pages (default [] (jd_buttons jd)) ∅) ↔ keys_are_ints jd) ∧
  (int_keys buttons ∅ = Some m → ∀ n, m !! n = last_for n buttons).
Proof.
  split; [apply int_pages_is_Some|].
  intros Hm n. rewrite (int_keys_lookup buttons ∅ m n Hm).
  destruct (last_for n buttons); [done|apply lookup_empty].
Qed.

Lemma load_deck_run deck_id jd bs (w : world) :
  int_pages (default [] (jd_buttons jd)) ∅ = Some bs →
  load_deck (deck_id, jd) w =
  (Returns tt,
   with_state (<[deck_id := DeckState (Some bs) (jd_brightness jd) (jd_page jd)]> (state w)) w).
Proof. intros Hbs. unfold load_deck. rewrite Hbs. reflexivity. Qed.

Lemma load_decks_run (l : list (string * json_deck)) (w : world) :
  Forall (λ item, keys_are_ints item.2) l → NoDup l.*1 →
  ∃ st, for_each l load_deck w = (Returns tt, with_state st w) ∧
    (∀ d, d ∉ l.*1 → st !! d = state w !! d) ∧
    (∀ d jd, (d, jd) ∈ l →
       ∃ bs, int_pages (default [] (jd_buttons jd)) ∅ = Some bs ∧
             st !! d = Some (DeckState (Some bs) (jd_brightness jd) (jd_page jd))).
Proof.
  revert w. induction l as [|[d0 jd0] l IH]; intros w Hall Hnd.
  - exists (state w). cbn. rewrite with_state_id. split; [done|]. split; [done|].
    intros d jd Hin. by apply elem_of_nil in Hin.
  - apply Forall_cons in Hall as [H0 Hall]. cbn in Hnd. apply NoDup_cons in Hnd as [Hd0 Hnd].
    apply (proj2 (int_pages_is_Some (default [] (jd_buttons jd0)) ∅)) in H0 as [bs Hbs].
    destruct (IH (with_state
      (<[d0 := DeckState (Some bs) (jd_brightness jd0) (jd_page jd0)]> (state w)) w) Hall Hnd)
      as (st & Hrun & Hout & Hin).
    exists st. split; [|split].
    + change (for_each ((d0, jd0) :: l) load_deck w)
        with ((load_deck (d0, jd0);; for_each l load_deck) w).
      by rewrite bind_unfold, (load_deck_run d0 jd0 bs w Hbs), Hrun.
    + intros d Hd. cbn in Hd. rewrite not_elem_of_cons in Hd. destruct Hd as [Hne Hd].
      rewrite (Hout d Hd). cbn. by rewrite lookup_insert_ne.
    + intros d jd [[= -> ->]|Hmem]%elem_of_cons; [|by apply Hin].
      exists bs. split; [done|]. rewrite (Hout d0 Hd0). cbn. by rewrite lookup_insert_eq.
Qed.

(** X11: a file of the right version whose decks have distinct serials and
    only integer keys loads: [_open_config] returns, the tree is replaced
    as a whole (a deck that is not in the file is gone), every deck of the
    file is there with its buttons keyed by ints, its brightness and its
    page, and a ["buttons"] entry also when the file had none; the cache,
    the registry and the trace are untouched. *)
Theorem X11_open_config_replaces_the_tree (config : config_json)
    (l : list (string * json_deck)) (w : world) :
  default 0 (cfg_version config) = CONFIG_FILE_VERSION →
  cfg_state config = Some l →
  Forall (λ item, keys_are_ints item.2) l → NoDup l.*1 →
  ∃ st, _open_config (Some config) w = (Returns tt, with_state st w) ∧
    (∀ d, d ∉ l.*1 → st !! d = None) ∧
    (∀ d jd, (d, jd) ∈ l →
       ∃ bs, int_pages (default [] (jd_buttons jd)) ∅ = Some bs ∧
             st !! d = Some (DeckState (Some bs) (jd_brightness jd) (jd_page jd))).
Proof.
  intros Hv Hl Hall Hnd.
  destruct (load_decks_run l (with_state ∅ w) Hall Hnd) as (st & Hrun & Hout & Hin).
  exists st. split; [|split; [|done]].
  - unfold _open_config. mrun. rewrite Hv, Z.eqb_refl, Hl. cbn. exact Hrun.
  - intros d Hd. rewrite (Hout d Hd). apply lookup_empty.
Qed.

Lemma load_decks_from_file (l : list (string * json_deck)) :
  invariant (λ w, ∀ d, d ∉ l.*1 → state w !! d = None) (for_each l load_deck).
Proof.
  apply invariant_for_each. intros [d0 jd0] Hin. unfold load_deck. inv_auto.
  intros d Hd. cbn. rewrite lookup_insert_ne; [by auto|].
  intros ->. apply Hd. apply list_elem_of_fmap. by exists (d, jd0).
Qed.

(** X12: apart from a version mismatch, a failed load is not atomic: the
    tree is emptied before the decks are read.  A file of the right
    version without a ["state"] entry raises KeyError and leaves the tree
    empty; one with a key that is not an integer raises ValueError and
    leaves only decks of the file in the tree.  In both cases what was
    configured before for other decks is lost in memory. *)
Theorem X12_failed_load_loses_the_tree (config : config_json) (w : world) :
  default 0 (cfg_version config) = CONFIG_FILE_VERSION →
  (cfg_state config = None →
     _open_config (Some config) w = (Raises KeyError, with_state ∅ w)) ∧
  (∀ l, cfg_state config = Some l → ¬ Forall (λ item, keys_are_ints item.2) l →
     result (_open_config (Some config)) w = Raises ValueError ∧
     ∀ d, d ∉ l.*1 → state (after (_open_config (Some config)) w) !! d = None).
Proof.
  intros Hv. split.
  - intros Hnone. unfold _open_config. mrun. by rewrite Hv, Z.eqb_refl, Hnone.
  - intros l Hl Hbad.
    assert (Heq : _open_config (Some config) w = for_each l load_deck (with_state ∅ w)).
    { unfold _open_config. mrun. by rewrite Hv, Z.eqb_refl, Hl. }
    unfold result, after. rewrite Heq. split.
    + clear Heq Hl. generalize (with_state ∅ w). induction l as [|[d0 jd0] l IH]; intros w1.
      { destruct Hbad. constructor. }
      cbn. rewrite bind_unfold. unfold load_deck at 1.
      destruct (int_pages (default [] (jd_buttons jd0)) ∅) as [bs|] eqn:Hbs; cbn; [|done].
      apply IH. intros Hall. apply Hbad. constructor; [|done].
      refine (proj1 (int_pages_is_Some (default [] (jd_buttons jd0)) ∅) _). by rewrite Hbs.
    + apply (load_decks_from_file l (with_state ∅ w)). intros d _. apply lookup_empty.
Qed.

Lemma open_config_cache_inv (C : gmap string (cache_entry frame) → Prop) contents :
  invariant (λ w, C (image_cache w)) (_open_config contents).
Proof.
  unfold _open_config. inv_auto; try done.
  apply invariant_for_each. intros [d jd] _. unfold load_deck. inv_auto. done.
Qed.

Lemma open_config_trace_inv (Q : list (event frame) → Prop) contents :
  invariant (λ w, Q (trace w)) (_open_config contents).
Proof.
  unfold _open_config. inv_auto; try done.
  apply invariant_for_each. intros [d jd] _. unfold load_deck. inv_auto. done.
Qed.

(** X13: [import_config] never clears the image cache: however it ends,
    every entry cached before is still cached with the same frames and
    frame rate, so a button whose key was cached keeps its old image after
    the import even when the file gives it another icon.  When it returns,
    it exported the tree once and every button now shown waits for its
    first draw. *)
Theorem X13_import_keeps_cached_images (contents : option config_json) (w : world) :
  let w' := after (import_config contents) w in
  keeps_entries (image_cache w) (image_cache w') ∧
  (result (import_config contents) w = Returns tt →
     trace w' = trace w ++ [EvExport STATE_FILE (state w')] ∧
     ∀ d p k, visible w' d p k → pending (cache_key d p k) (image_cache w')).
Proof.
  intros w'. split.
  - apply (invariant_bind (λ w1, keeps_entries (image_cache w) (image_cache w1))
             (_open_config contents) (λ _, render;; _save_state)).
    + apply (open_config_cache_inv (keeps_entries (image_cache w))).
    + intros _. apply invariant_bind; [apply render_keeps_entries|].
      intros _. apply save_state_cache_inv. by intros w3 t.
    + intros key e He. by exists e.
  - subst w'. unfold result, after, import_config. rewrite bind_unfold.
    assert (Htr : trace (_open_config contents w).2 = trace w)
      by apply (open_config_trace_inv (λ t, t = trace w) contents w eq_refl).
    destruct (_open_config contents w) as [[[]|e|] w1]; try discriminate. cbn in Htr.
    rewrite bind_unfold.
    destruct (render w1) as [[[]|e|] w2] eqn:Hrun; try discriminate.
    intros _. destruct (render_resets_frame w1 w2 Hrun) as [Hs2 Hd2].
    assert (Ht2 := render_trace w1). unfold after in Ht2. rewrite Hrun in Ht2. cbn in Ht2.
    unfold _save_state, export_config. mrun. split; [by rewrite Ht2, Htr|].
    intros d p k Hvis.
    destruct (render_resets d p k w1 w2 Hrun) as (_ & _ & _ & Hpend); [|done].
    revert Hvis. unfold visible. cbn. by rewrite Hs2, Hd2.
Qed.

(** *** Key presses *)

Lemma presses_app (t1 t2 : list (event frame)) : presses (t1 ++ t2) = presses t1 ++ presses t2.
Proof. apply omap_app. Qed.

Lemma releases_app (t1 t2 : list (event frame)) :
  releases (t1 ++ t2) = releases t1 ++ releases t2.
Proof. apply omap_app. Qed.

Lemma presses_of_chord (l : list string) :
  presses (map (λ k, EvPress (resolve_key k)) l) = map resolve_key l ∧
  presses (map (λ k, EvRelease (resolve_key k)) l) = [] ∧
  releases (map (λ k, EvPress (resolve_key k)) l) = [] ∧
  releases (map (λ k, EvRelease (resolve_key k)) l) = map resolve_key l.
Proof.
  induction l as [|k l (IH1 & IH2 & IH3 & IH4)]; [done|].
  unfold presses, releases in *. cbn. by rewrite IH1, IH2, IH3, IH4.
Qed.

Lemma chord_presses (section : string) :
  presses (chord_events section) = map resolve_key (Str.split "+" section) ∧
  releases (chord_events section) = map resolve_key (Str.split "+" section).
Proof.
  unfold chord_events. rewrite presses_app, releases_app.
  destruct (presses_of_chord (Str.split "+" section)) as (-> & -> & -> & ->).
  by rewrite app_nil_r.
Qed.

Lemma key_events_balanced (sections : list string) :
  presses (concat (map chord_events sections)) =
  releases (concat (map chord_events sections)).
Proof.
  induction sections as [|s l IH]; [done|].
  cbn [concat map]. rewrite presses_app, releases_app, IH.
  destruct (chord_presses s) as [-> ->]. done.
Qed.

(** The chord loop when the keyboard refuses a key. *)
Lemma press_chords_refused (sections : list string) (w : world) :
  forallb chord_accepted sections = false →
  ∃ e k sent rest held,
    concat (map chord_events sections) = sent ++ EvPress k :: rest ∧
    key_error k = Some e ∧
    (∀ k', In (EvPress k') sent → key_error k' = None) ∧
    presses sent = releases sent ++ held ∧
    for_each sections (λ section,
      for_each (Str.split "+" section) (λ key_name, keyboard_press (resolve_key key_name));;
      for_each (Str.split "+" section) (λ key_name, keyboard_release (resolve_key key_name))) w =
    (Raises e, with_trace (trace w ++ sent) w).
Proof.
  revert w. induction sections as [|s l IH]; intros w Hbad; [done|].
  cbn in Hbad. destruct (chord_accepted s) eqn:Hs.
  - cbn in Hbad.
    destruct (IH (with_trace (trace w ++ chord_events s) w) Hbad)
      as (e & k & sent & rest & held & Heq & He & Hsent & Hheld & Hrun).
    exists e, k, (chord_events s ++ sent), rest, held.
    split; [cbn [concat map]; by rewrite Heq, <- app_assoc|]. split; [done|].
    split; [|split].
    + intros k' Hin. apply in_app_or in Hin as [Hin|Hin]; [|by apply Hsent].
      unfold chord_events in Hin. apply in_app_or in Hin as [Hin|Hin].
      * apply in_map_iff in Hin as (x & [= <-] & Hx). apply key_accepted_error.
        unfold chord_accepted in Hs. rewrite forallb_forall in Hs. by apply Hs.
      * apply in_map_iff in Hin as (x & Hx & _). discriminate Hx.
    + rewrite presses_app, releases_app, Hheld.
      destruct (chord_presses s) as [-> ->]. by rewrite <- app_assoc.
    + cbn [for_each]. rewrite bind_unfold, (chord_run _ _ Hs), Hrun. cbn.
      by rewrite <- app_assoc.
  - destruct (press_each_refused (Str.split "+" s) w Hs)
      as (e & pre & bad & post & Hsplit & Hpre & He & Hrun).
    exists e, (resolve_key bad), (map (λ key_name, EvPress (resolve_key key_name)) pre),
      (map (λ key_name, EvPress (resolve_key key_name)) post ++
       map (λ key_name, EvRelease (resolve_key key_name)) (Str.split "+" s) ++
       concat (map chord_events l)),
      (map resolve_key pre).
    split; [|split; [done|split; [|split]]].
    + cbn [concat map]. unfold chord_events. rewrite Hsplit at 1.
      rewrite map_app. cbn [map]. by rewrite <- !app_assoc.
    + intros k' Hin. apply in_map_iff in Hin as (x & [= <-] & Hx).
      apply key_accepted_error. rewrite forallb_forall in Hpre. by apply Hpre.
    + by destruct (presses_of_chord pre) as (-> & _ & -> & _).
    + cbn [for_each]. rewrite bind_unfold, bind_unfold, Hrun. reflexivity.
Qed.

(** X14: [keys] are sent chord by chord.  When the keyboard accepts every
    key, [press_keys] returns and over the whole string the keys released
    are the keys pressed, in the same order.  When it refuses a key,
    [press_keys] raises the keyboard's exception at the press of the first
    such key: what was sent is what comes before that press, the remaining
    chords are not played, and the keys of the interrupted chord that were
    already pressed are never released. *)
Theorem X14_chords_release_what_they_press (keys : string) (w : world) :
  (keys_accepted keys = true →
     press_keys keys w = (Returns tt, with_trace (trace w ++ key_events keys) w) ∧
     presses (key_events keys) = releases (key_events keys)) ∧
  (keys_accepted keys = false →
     ∃ e k sent rest held,
       key_events keys = sent ++ EvPress k :: rest ∧
       key_error k = Some e ∧
       (∀ k', In (EvPress k') sent → key_error k' = None) ∧
       presses sent = releases sent ++ held ∧
       press_keys keys w = (Raises e, with_trace (trace w ++ sent) w)).
Proof.
  split.
  - intros Hok. split; [by apply press_keys_run | apply key_events_balanced].
  - intros Hbad. by apply press_chords_refused.
Qed.

(** X15: a press on a key with nothing to do (no command, keys or text,
    brightness change 0, page switch 0 - in particular a key that was never
    configured) returns and emits nothing, but it is not without effect:
    the getters it calls leave an entry for the key on the current page in
    the tree. *)
Theorem X15_idle_press_creates_the_button (deck_id : string) (key : Z) (w : world) :
  let page := page_of (state w) deck_id in
  let b := default empty_button (lookup_button (state w) deck_id page key) in
  Str.truthy (default "" (b_command b)) = false →
  Str.truthy (default "" (b_keys b)) = false →
  Str.truthy (default "" (b_write b)) = false →
  default 0 (b_brightness_change b) = 0 →
  default 0 (b_switch_page b) = 0 →
  _key_change_callback deck_id key true w =
    (Returns tt, with_state (put_button deck_id page key b (state w)) w) ∧
  lookup_button (put_button deck_id page key b (state w)) deck_id page key = Some b.
Proof.
  intros page b Hc Hk Hw Hb Hs. split; [|apply lookup_button_put_eq].
  set (w1 := with_state (put_button deck_id page key b (state w)) w).
  assert (Hl1 : lookup_button (state w1) deck_id page key = Some b)
    by apply lookup_button_put_eq.
  assert (H1 : get_button_command deck_id page key w = (Returns (default "" (b_command b)), w1))
    by reflexivity.
  unfold _key_change_callback, when at 1.
  rewrite (bind_returns _ _ _ _ _ (get_page_run deck_id w)). fold page.
  rewrite (bind_returns _ _ _ _ _ H1), Hc. rewrite (bind_returns _ _ w1 w1 tt) by reflexivity.
  rewrite (bind_returns _ _ _ _ _
    (getter_stable deck_id page key b (λ x, default "" (b_keys x)) w1 Hl1)), Hk.
  rewrite (bind_returns _ _ w1 w1 tt) by reflexivity.
  rewrite (bind_returns _ _ _ _ _
    (getter_stable deck_id page key b (λ x, default "" (b_write x)) w1 Hl1)), Hw.
  rewrite (bind_returns _ _ w1 w1 tt) by reflexivity.
  rewrite (bind_returns _ _ _ _ _
    (getter_stable deck_id page key b (λ x, default 0 (b_brightness_change x)) w1 Hl1)), Hb.
  rewrite (bind_returns _ _ w1 w1 tt) by reflexivity.
  rewrite (bind_returns _ _ _ _ _
    (getter_stable deck_id page key b (λ x, default 0 (b_switch_page x)) w1 Hl1)), Hs.
  reflexivity.
Qed.

(** *** When a render pass returns *)

Lemma render_total (w : world) :
  lock w = false → renderable w → result render w = Returns tt.
Proof.
  intros Hlock Hren. unfold result, render.
  assert (Hacq : acquire w = (Returns tt, with_lock true w))
    by (unfold acquire; by rewrite Hlock).
  rewrite (bind_returns _ _ _ _ _ Hacq).
  rewrite (bind_returns _ _ (with_lock true w) (with_lock true w) (state w)) by reflexivity.
  set (I := λ w1 : world, state w1 = state w ∧ decks w1 = decks w ∧
              ∀ key, image_cache w1 !! key = None → image_cache w !! key = None).
  destruct (for_each_map_keep (state w) render_deck I) with (w := with_lock true w)
    as [Hr _]; [|done|].
  - intros d ds w1 Hds (Hst & Hdk & Hgrow). unfold result, after, render_deck.
    rewrite (bind_returns _ _ w1 w1 (decks w1)) by reflexivity. rewrite Hdk.
    destruct (decks w !! d) as [dk|] eqn:Hd; [|done].
    rewrite (bind_returns _ _ _ _ _ (get_page_run d w1)). rewrite Hst.
    refine (for_each_map_keep _ _ I _ w1 (conj Hst (conj Hdk Hgrow))).
    intros b bs w2 Hbs (Hst2 & Hdk2 & Hgrow2). unfold result, after.
    rewrite render_button_run.
    destruct (image_cache w2 !! cache_key d (page_of (state w) d) b) as [e|] eqn:He.
    + cbn. split; [done|]. split; [done|]. split; [done|]. intros key.
      destruct (decide (key = cache_key d (page_of (state w) d) b)) as [->|Hne].
      * cbn. by rewrite lookup_insert_eq.
      * cbn. rewrite lookup_insert_ne by done. apply Hgrow2.
    + destruct (Hren d ds dk b bs Hds Hd Hbs (Hgrow2 _ He)) as [[image fps] ->].
      cbn. split; [done|]. split; [done|]. split; [done|]. intros key.
      destruct (decide (key = cache_key d (page_of (state w) d) b)) as [->|Hne].
      * cbn. by rewrite lookup_insert_eq.
      * cbn. rewrite lookup_insert_ne by done. apply Hgrow2.
  - unfold result in Hr. rewrite bind_unfold.
    destruct (for_each (map_to_list (state w)) render_deck (with_lock true w)) as [o w1].
    cbn in Hr. by subst o.
Qed.

Lemma render_returned_renderable (w w' : world) :
  render w = (Returns tt, w') → renderable w.
Proof.
  intros Hrun d ds dk b bs Hds Hdk Hbs Hnone.
  destruct (render_returns w w' Hrun) as (_ & _ & Hloop).
  set (key := cache_key d (page_of (state w) d) b) in *.
  set (I1 := λ w1 : world, state w1 = state w ∧ decks w1 = decks w ∧
               image_cache w1 !! key = None).
  set (I2 := λ _ : world, is_Some (_render_key_image dk bs)).
  refine (for_each_map_visited (state w) d ds render_deck I1 I2 Hds _ _ _
            (with_lock true w) _ _ Hloop); [| | |done].
  - intros d' ds' _ Hne.
    apply (render_deck_invariant (state w) (decks w) (λ c, c !! key = None)).
    intros dk' b' bs' w1 _ _ HC.
    rewrite render_button_other; [done|]. intros Heq. apply cache_key_inj in Heq. tauto.
  - intros w1 w2 (Hst1 & Hdk1 & Hc1). unfold render_deck.
    rewrite (bind_returns _ _ w1 w1 (decks w1)) by reflexivity. rewrite Hdk1, Hdk.
    rewrite (bind_returns _ _ _ _ _ (get_page_run d w1)). rewrite Hst1.
    intros Hrun1.
    refine (for_each_map_visited _ b bs _ I1 I2 Hbs _ _ _ w1 w2 _ Hrun1); [| | |done].
    + intros b' bs' _ Hne.
      apply (render_button_invariant (state w) (decks w) (λ c, c !! key = None)).
      intros w3 HC.
      rewrite render_button_other; [done|]. intros Heq. apply cache_key_inj in Heq. tauto.
    + intros w3 w4 (_ & _ & Hc3). rewrite render_button_run. fold key. rewrite Hc3.
      unfold I2. destruct (_render_key_image dk bs) as [[image fps]|]; [by eauto|discriminate].
    + intros b' bs' _ _ w3 Hw3. exact Hw3.
  - intros d' ds' _ _ w3 Hw3. exact Hw3.
Qed.

(** X17: [render()] returns exactly when the lock is free and every shown
    button that has no cache entry yet can be rendered; an image that
    cannot be rendered matters only for a shown button that is not cached
    (a cached one is reset without being rendered again). *)
Theorem X17_render_returns_iff (w : world) :
  result render w = Returns tt ↔ lock w = false ∧ renderable w.
Proof.
  split.
  - intros Hres. unfold result in Hres.
    destruct (render w) as [o w'] eqn:Hrun. cbn in Hres. subst o.
    split; [by destruct (render_returns w w' Hrun)|by eapply render_returned_renderable].
  - intros [Hlock Hren]. by apply render_total.
Qed.

(** X18: the entry that a button getter leaves in the tree is left once:
    after any getter has run for a triple, every getter for that triple
    returns its field without changing the world again. *)
Theorem X18_getters_settle (deck_id : string) (page btn : Z) (w : world) :
  let b := default empty_button (lookup_button (state w) deck_id page btn) in
  let w' := after (_button_state deck_id page btn) w in
  get_button_text deck_id page btn w' = (Returns (default "" (b_text b)), w') ∧
  get_button_icon deck_id page btn w' = (Returns (default "" (b_icon b)), w') ∧
  get_button_command deck_id page btn w' = (Returns (default "" (b_command b)), w') ∧
  get_button_keys deck_id page btn w' = (Returns (default "" (b_keys b)), w') ∧
  get_button_write deck_id page btn w' = (Returns (default "" (b_write b)), w') ∧
  get_button_switch_page deck_id page btn w' = (Returns (default 0 (b_switch_page b)), w') ∧
  get_button_change_brightness deck_id page btn w' =
    (Returns (default 0 (b_brightness_change b)), w') ∧
  (after (get_button_text deck_id page btn) w = w' ∧
   after (get_button_command deck_id page btn) w = w' ∧
   after (get_button_switch_page deck_id page btn) w = w').
Proof.
  intros b w'.
  assert (Hl : lookup_button (state w') deck_id page btn = Some b)
    by apply lookup_button_put_eq.
  split; [exact (getter_stable deck_id page btn b (λ x, default "" (b_text x)) w' Hl)|].
  split; [exact (getter_stable deck_id page btn b (λ x, default "" (b_icon x)) w' Hl)|].
  split; [exact (getter_stable deck_id page btn b (λ x, default "" (b_command x)) w' Hl)|].
  split; [exact (getter_stable deck_id page btn b (λ x, default "" (b_keys x)) w' Hl)|].
  split; [exact (getter_stable deck_id page btn b (λ x, default "" (b_write x)) w' Hl)|].
  split; [exact (getter_stable deck_id page btn b (λ x, default 0 (b_switch_page x)) w' Hl)|].
  split; [exact (getter_stable deck_id page btn b
                   (λ x, default 0 (b_brightness_change x)) w' Hl)|].
  repeat split.
Qed.

End Facts.

Lemma C5_change_brightness_clamps_witness :
  brightness_of (state (after (change_brightness "D" 20) (Demo.with_brightness 95))) "D" = 100.
Proof.
  apply (C5_change_brightness_clamps "D" 20 (Demo.with_brightness 95)).
  - by exists tt.
  - reflexivity.
  - reflexivity.
Defined.

Lemma C8_brightness_range_amended_witness :
  brightness_in_range (state (after (_key_change_callback "D" 0 true) (Demo.with_brightness 95))).
Proof.
  assert (Hw : brightness_in_range (state (Demo.with_brightness 95))).
  { intros d. unfold brightness_of, Demo.with_brightness, state.
    destruct (decide (d = "D")) as [->|Hd].
    - rewrite lookup_singleton_eq. simpl. lia.
    - rewrite lookup_singleton_ne by done. simpl. lia. }
  exact (proj1 (proj2 (C8_brightness_range_amended (Demo.with_brightness 95) Hw)) "D" 0 true).
Defined.

(** C8 as stated fails for [set_brightness]: from brightness 100 the call
    [set_brightness("D", 150)] returns and leaves 150 in the store. *)
Lemma C8_set_brightness_counterexample :
  brightness_of (state (Demo.with_brightness 100)) "D" = 100 ∧
  result (set_brightness "D" 150) (Demo.with_brightness 100) = Returns tt ∧
  brightness_of (state (after (set_brightness "D" 150) (Demo.with_brightness 100))) "D" = 150.
Proof. split; [|split]; vm_compute; reflexivity. Qed.

Lemma C10_getters_insert_entries_witness :
  get_button_text "D" 0 3 Demo.fresh =
  (Returns "",
   with_state {[ "D" := DeckState (Some {[ 0 := {[ 3 := empty_button ]} ]}) None None ]}
     Demo.fresh).
Proof.
  assert (Hnone : lookup_button (state Demo.fresh) "D" 0 3 = None) by reflexivity.
  exact (proj1 (C10_getters_insert_entries "D" 0 3 Demo.fresh Hnone)).
Defined.

Lemma C6_version_mismatch_rejected_witness :
  _open_config (Some (ConfigJson (Some 2) (Some []))) (Demo.with_brightness 95) =
  (Raises ValueError, Demo.with_brightness 95).
Proof.
  assert (Hne : default 0 (cfg_version (ConfigJson (Some 2) (Some []))) ≠
                @CONFIG_FILE_VERSION Demo.platform)
    by (intros Heq; vm_compute in Heq; discriminate Heq).
  exact (proj1 (C6_version_mismatch_rejected (ConfigJson (Some 2) (Some []))
                  (Demo.with_brightness 95) Hne)).
Defined.

Lemma C4_press_runs_every_action_amended_witness :
  In (EvPopen ["ls"; ""; "-l"])
     (trace (after (_key_change_callback "D" 0 true) (Demo.with_button Demo.launcher))) ∧
  In (EvType "hi")
     (trace (after (_key_change_callback "D" 0 true) (Demo.with_button Demo.launcher))).
Proof.
  assert (Hdk : is_Some (decks (Demo.with_button Demo.launcher) !! "D")) by (by exists tt).
  exact (proj2 (proj2 (C4_press_runs_every_action_amended "D" 0
                         (Demo.with_button Demo.launcher))
                  Hdk (λ _, eq_refl) ltac:(intros Hk; vm_compute in Hk; discriminate Hk)
                  (λ _, eq_refl)) eq_refl eq_refl).
Defined.

(** C4 as stated fails on a button with a command and a text: when the
    launch of ["nosuchprogram"] fails, the press on the registered deck
    raises OSError and neither action has run - no process is started and
    the text ["hi"] is not typed. *)
Lemma C4_press_counterexample :
  Str.truthy (default "" (b_command Demo.broken_launcher)) = true ∧
  Str.truthy (default "" (b_write Demo.broken_launcher)) = true ∧
  is_Some (decks (Demo.with_button Demo.broken_launcher) !! "D") ∧
  result (_key_change_callback "D" 0 true) (Demo.with_button Demo.broken_launcher) =
    Raises OSError ∧
  ¬ In (EvType "hi")
      (trace (after (_key_change_callback "D" 0 true)
                (Demo.with_button Demo.broken_launcher))) ∧
  ¬ In (EvPopen ["nosuchprogram"])
      (trace (after (_key_change_callback "D" 0 true)
                (Demo.with_button Demo.broken_launcher))).
Proof.
  assert (Htr : trace (after (_key_change_callback "D" 0 true)
                         (Demo.with_button Demo.broken_launcher)) = [])
    by (vm_compute; reflexivity).
  rewrite Htr. split; [reflexivity|]. split; [reflexivity|].
  split; [by exists tt|]. split; [vm_compute; reflexivity|]. split; intros [].
Qed.



(** C3 as stated fails on a plugged-in deck: [set_button_change_brightness]
    adds an entry to the empty cache, and after [set_button_text] the
    button's key holds an entry again. *)
Lemma C3_cache_invalidation_counterexample :
  image_cache Demo.fresh = ∅ ∧
  image_cache (after (set_button_change_brightness "D" 0 0 5) Demo.fresh) !! cache_key "D" 0 0
    = Some (CacheEntry [0%nat] Flt.zero Flt.zero 0) ∧
  image_cache (after (set_button_text "D" 0 0 "hi") Demo.fresh) !! cache_key "D" 0 0
    = Some (CacheEntry [0%nat] Flt.zero Flt.zero 0).
Proof. split; [|split]; vm_compute; reflexivity. Qed.

(** C1: on a tick at or past the due time of an entry with fps > 0 (of a
    visible button, in a cache whose entries are drawable) the scheduler
    pushes the frame at the stored index, sets the due time to the current
    time plus 1000/fps and the index to (index + 1) mod the frame count;
    on a tick before the due time it pushes nothing to the button and
    leaves the entry as it is.  With fps 10 and 5 frames, the 200 ticks of
    2000 ms give exactly 20 pushes, cycling 0,1,2,3,4. *)
Theorem C1_animated_entry_ticks :
  (∀ (P : Platform) now deck_id page btn e (w : world),
     lock w = false → cache_ok w → visible w deck_id page btn →
     image_cache w !! cache_key deck_id page btn = Some e →
     Flt.positive (ce_fps e) = true →
     let w' := after (render_tick now) w in
     result (render_tick now) w = Returns tt ∧
     (Flt.int_ge now (ce_next_time e) = true →
        ∃ img, py_index (ce_image e) (ce_frame e) = Some img ∧
          pushes_of deck_id btn (trace w') = pushes_of deck_id btn (trace w) ++ [img] ∧
          image_cache w' !! cache_key deck_id page btn =
            Some (CacheEntry (ce_image e) (ce_fps e)
                    (Flt.int_add now (Flt.thousand_over (ce_fps e)))
                    ((ce_frame e + 1) mod Z.of_nat (length (ce_image e))))) ∧
     (Flt.int_ge now (ce_next_time e) = false →
        pushes_of deck_id btn (trace w') = pushes_of deck_id btn (trace w) ∧
        image_cache w' !! cache_key deck_id page btn = Some e)) ∧
  (let w := after render (Demo.with_button Demo.spinner) in
   image_cache w !! cache_key "D" 0 0 =
     Some (CacheEntry [0; 1; 2; 3; 4]%nat 10%float Flt.zero 0) ∧
   length Demo.clock = 200%nat ∧
   result (render_thread Demo.clock) w = Returns tt ∧
   pushes_of "D" 0 (trace (after (render_thread Demo.clock) w)) =
     [0; 1; 2; 3; 4; 0; 1; 2; 3; 4; 0; 1; 2; 3; 4; 0; 1; 2; 3; 4]%nat).
Proof.
  split.
  - intros P now deck_id page btn e w. apply animated_tick.
  - repeat split; vm_compute; reflexivity.
Qed.

Lemma C1_animated_entry_ticks_witness :
  result (render_tick 0) (after render (Demo.with_button Demo.spinner)) = Returns tt.
Proof.
  set (w := after render (Demo.with_button Demo.spinner)).
  set (e := CacheEntry [0; 1; 2; 3; 4]%nat 10%float Flt.zero 0).
  assert (Hc : image_cache w = {[ cache_key "D" 0 0 := e ]}) by (vm_compute; reflexivity).
  assert (Hlock : lock w = false) by (vm_compute; reflexivity).
  assert (Hok : cache_ok w).
  { intros key e'. rewrite Hc. intros [_ <-]%lookup_singleton_Some.
    unfold entry_ok. cbn. lia. }
  assert (Hvis : visible w "D" 0 0).
  { split; [by exists tt|]. split; [vm_compute; reflexivity|].
    exists (DeckState (Some {[ 0 := {[ 0 := Demo.spinner ]} ]}) None None).
    split; [vm_compute; reflexivity|]. exists Demo.spinner. vm_compute. reflexivity. }
  assert (He : image_cache w !! cache_key "D" 0 0 = Some e)
    by (rewrite Hc; apply lookup_singleton_eq).
  assert (Hpos : Flt.positive (ce_fps e) = true) by (vm_compute; reflexivity).
  exact (proj1 (proj1 C1_animated_entry_ticks Demo.platform 0 "D" 0 0 e w
                  Hlock Hok Hvis He Hpos)).
Defined.

Lemma C2_static_entry_drawn_once_witness :
  ∃ e, image_cache (after render (Demo.with_button Demo.label)) !! cache_key "D" 0 0 = Some e ∧
       ce_next_time e = Flt.zero.
Proof.
  assert (Hframes : renders_frames (H := Demo.platform)).
  { intros dk b image fps. cbn. unfold Demo.render_key_image.
    repeat case_decide; intros [= <- <-]; done. }
  assert (Hok : cache_ok (Demo.with_button Demo.label)).
  { intros key e. cbn. by rewrite lookup_empty. }
  assert (Hrun : render (Demo.with_button Demo.label) =
                 (Returns tt, after render (Demo.with_button Demo.label)))
    by (vm_compute; reflexivity).
  assert (Hvis : visible (Demo.with_button Demo.label) "D" 0 0).
  { split; [by exists tt|]. split; [vm_compute; reflexivity|].
    exists (DeckState (Some {[ 0 := {[ 0 := Demo.label ]} ]}) None None).
    split; [vm_compute; reflexivity|]. exists Demo.label. vm_compute. reflexivity. }
  destruct (C2_static_entry_drawn_once "D" 0 0 _ _ Hframes Hok Hrun Hvis)
    as (e & img & He & Hnext & _).
  by exists e.
Defined.

Lemma X3_failed_render_keeps_the_lock_witness :
  lock (after render (Demo.with_button Demo.broken_icon)) = true.
Proof.
  assert (Hres : result render (Demo.with_button Demo.broken_icon) = Raises ImageError)
    by (vm_compute; reflexivity).
  exact (proj1 (X3_failed_render_keeps_the_lock _ _ Hres)).
Defined.

Lemma X4_scheduler_runs_safely_witness :
  result (render_thread [0; 10; 20]) (Demo.with_brightness 95) = Returns tt.
Proof.
  assert (Hok : cache_ok (Demo.with_brightness 95)).
  { intros key e. cbn. by rewrite lookup_empty. }
  exact (proj1 (X4_scheduler_runs_safely [0; 10; 20] (Demo.with_brightness 95) Hok eq_refl)).
Defined.

Lemma X5_hidden_entries_stay_stale_witness :
  image_cache (after render (Demo.with_button Demo.spinner)) !! cache_key "D" 7 0 =
  image_cache (Demo.with_button Demo.spinner) !! cache_key "D" 7 0.
Proof.
  assert (Hhidden : ¬ visible (Demo.with_button Demo.spinner) "D" 7 0).
  { intros (_ & Hpage & _). vm_compute in Hpage. discriminate Hpage. }
  exact (proj1 (X5_hidden_entries_stay_stale "D" 7 0 0 _ Hhidden)).
Defined.

Lemma X8_set_page_shows_the_page_witness :
  trace (after (set_page "D" 1) (Demo.with_button Demo.label)) =
  [EvExport "state.json" (state (after (set_page "D" 1) (Demo.with_button Demo.label)))].
Proof.
  assert (Hres : result (set_page "D" 1) (Demo.with_button Demo.label) = Returns tt)
    by (vm_compute; reflexivity).
  exact (proj1 (proj2 (proj2 (X8_set_page_shows_the_page "D" 1 _)) Hres)).
Defined.

Lemma X9_set_brightness_needs_the_deck_witness :
  set_brightness "E" 50 Demo.fresh = (Raises KeyError, Demo.fresh).
Proof.
  assert (Hnone : decks Demo.fresh !! "E" = None) by (vm_compute; reflexivity).
  exact (proj1 (proj1 (X9_set_brightness_needs_the_deck "E" 50 Demo.fresh) Hnone)).
Defined.

Lemma X10_keys_are_normalised_to_ints_witness :
  ({[ 1 := Demo.launcher ]} : gmap Z button) !! 1 =
  last_for (H := Demo.platform) 1 [("1", Demo.label); ("01", Demo.launcher)].
Proof.
  assert (Hm : int_keys (H := Demo.platform) [("1", Demo.label); ("01", Demo.launcher)] ∅ =
               Some {[ 1 := Demo.launcher ]}) by (vm_compute; reflexivity).
  exact (proj2 (X10_keys_are_normalised_to_ints (H := Demo.platform)
                  (JsonDeck None None None) _ _) Hm 1).
Defined.

Lemma X11_open_config_replaces_the_tree_witness :
  ∃ st, _open_config (Some Demo.good_file) (Demo.with_brightness 95) =
        (Returns tt, with_state st (Demo.with_brightness 95)).
Proof.
  assert (Hall : Forall (λ item : string * json_deck, keys_are_ints (H := Demo.platform) item.2)
                   [("D", JsonDeck (Some [("0", [("3", Demo.label)])]) (Some 40) None)]).
  { constructor; [|constructor].
    refine (proj1 (int_pages_is_Some (H := Demo.platform) [("0", [("3", Demo.label)])] ∅) _).
    vm_compute. eauto. }
  assert (Hnd : NoDup [("D", JsonDeck (Some [("0", [("3", Demo.label)])]) (Some 40) None)].*1).
  { cbn. apply NoDup_singleton. }
  destruct (X11_open_config_replaces_the_tree Demo.good_file _ (Demo.with_brightness 95)
              eq_refl eq_refl Hall Hnd) as (st & Hrun & _).
  by exists st.
Defined.

Lemma X12_failed_load_loses_the_tree_witness :
  result (_open_config (Some Demo.bad_page_key)) (Demo.with_brightness 95) = Raises ValueError.
Proof.
  assert (Hbad : ¬ Forall (λ item : string * json_deck, keys_are_ints (H := Demo.platform) item.2)
                     [("D", JsonDeck (Some [("first", [])]) None None)]).
  { intros Hall. apply Forall_cons in Hall as [H0 _].
    apply (proj2 (int_pages_is_Some (H := Demo.platform) [("first", [])] ∅)) in H0.
    vm_compute in H0. by destruct H0. }
  exact (proj1 (proj2 (X12_failed_load_loses_the_tree Demo.bad_page_key
                         (Demo.with_brightness 95) eq_refl) _ eq_refl Hbad)).
Defined.

Lemma X13_import_keeps_cached_images_witness :
  trace (after (import_config (Some Demo.good_file)) Demo.fresh) =
  [EvExport "state.json" (state (after (import_config (Some Demo.good_file)) Demo.fresh))].
Proof.
  assert (Hres : result (import_config (Some Demo.good_file)) Demo.fresh = Returns tt)
    by (vm_compute; reflexivity).
  exact (proj1 (proj2 (X13_import_keeps_cached_images (Some Demo.good_file) Demo.fresh) Hres)).
Defined.

Lemma X14_chords_release_what_they_press_witness :
  press_keys "ctrl + c, enter" Demo.fresh =
    (Returns tt,
     with_trace [EvPress (KeyAttr "ctrl"); EvPress (KeyLiteral "c");
                 EvRelease (KeyAttr "ctrl"); EvRelease (KeyLiteral "c");
                 EvPress (KeyAttr "enter"); EvRelease (KeyAttr "enter")] Demo.fresh) ∧
  press_keys "a, shift+tab+b, c" Demo.fresh =
    (Raises ValueError,
     with_trace [EvPress (KeyLiteral "a"); EvRelease (KeyLiteral "a");
                 EvPress (KeyAttr "shift")] Demo.fresh) ∧
  ∃ e k sent rest held,
    key_events "a, shift+tab+b, c" = sent ++ EvPress k :: rest ∧
    @key_error Demo.platform k = Some e ∧
    (∀ k', In (EvPress k') sent → @key_error Demo.platform k' = None) ∧
    presses sent = releases sent ++ held ∧
    press_keys "a, shift+tab+b, c" Demo.fresh =
      (Raises e, with_trace (trace Demo.fresh ++ sent) Demo.fresh).
Proof.
  split; [|split].
  - exact (proj1 (proj1 (X14_chords_release_what_they_press "ctrl + c, enter" Demo.fresh)
                    eq_refl)).
  - vm_compute. reflexivity.
  - exact (proj2 (X14_chords_release_what_they_press "a, shift+tab+b, c" Demo.fresh)
             eq_refl).
Defined.

Lemma X15_idle_press_creates_the_button_witness :
  _key_change_callback "D" 4 true Demo.fresh =
  (Returns tt,
   with_state {[ "D" := DeckState (Some {[ 0 := {[ 4 := empty_button ]} ]}) None None ]}
     Demo.fresh).
Proof.
  exact (proj1 (X15_idle_press_creates_the_button "D" 4 Demo.fresh
                  eq_refl eq_refl eq_refl eq_refl eq_refl)).
Defined.

(** *** Splitting a command *)

Lemma split_not_nil (sep : ascii) (s : string) : Str.split sep s ≠ [].
Proof. destruct s as [|c s]; cbn; [done|]. destruct (Ascii.eqb c sep); [done|]. by destruct (Str.split sep s). Qed.

(** X16: the argument list [command.split(" ")] that [Popen] receives loses
    nothing of the command: it is never empty, no argument contains a
    space, there is one more argument than there are spaces, and joining
    the arguments with single spaces gives back the command. *)
Theorem X16_split_keeps_the_command (command : string) :
  Str.split " " command ≠ [] ∧
  Forall (λ arg, Str.remove " " arg = arg) (Str.split " " command) ∧
  String.concat " " (Str.split " " command) = command ∧
  (String.length command =
     (length (Str.split " " command) - 1 +
      list_sum (map String.length (Str.split " " command)))%nat).
Proof.
  split; [apply split_not_nil|].
  induction command as [|c s (IH1 & IH2 & IH3)]; [repeat split; by repeat constructor|].
  assert (Hnn := split_not_nil " " s). cbn.
  destruct (Ascii.eqb c " ") eqn:Hc.
  - apply Ascii.eqb_eq in Hc as ->. split; [by constructor|]. split.
    + cbn. destruct (Str.split " " s) eqn:Hs; [done|]. by rewrite IH2.
    + cbn. rewrite IH3. destruct (Str.split " " s); [done|]. cbn. lia.
  - destruct (Str.split " " s) as [|h t] eqn:Hs; [done|].
    apply Forall_cons in IH1 as [Hh Ht]. split; [|split].
    + constructor; [|done]. cbn. by rewrite Hc, Hh.
    + cbn in *. destruct t; cbn in *; by rewrite <- IH2.
    + cbn in *. lia.
Qed.

Lemma X17_render_returns_iff_witness :
  lock (Demo.with_button Demo.label) = false ∧ renderable (Demo.with_button Demo.label).
Proof.
  assert (Hres : result render (Demo.with_button Demo.label) = Returns tt)
    by (vm_compute; reflexivity).
  exact (proj1 (X17_render_returns_iff (Demo.with_button Demo.label)) Hres).
Defined.
